(** * The result-set form view of the SQL editor

    A shallow embedding of [backend/wbprivate/sqlide/result_form_view.cpp]:
    the field views (one widget per column), the dispatch from a column's
    SQL type to a field view, and the panel that binds to a recordset and
    walks its edited row.

    Conventions.  A C++ [int] is a [Z] kept in the 32-bit signed range by
    [wrap_int]; a [std::string] is a [string] (a list of bytes); an index
    into a string is a [Z], and [std::string::npos] is [None].  Widgets are
    records of the properties the code sets.  The panel's methods run in a
    small state-and-exception monad over the [World]: the recordset the
    panel observes, the panel itself, and the log of calls that leave the
    component. *)

From Stdlib Require Import ZArith List String Ascii Bool Lia DecimalString.
Import ListNotations.
Local Open Scope string_scope.
Local Open Scope Z_scope.

(** ** Machine integers *)

Module CInt.

Definition INT_MIN : Z := - 2 ^ 31.
Definition INT_MAX : Z := 2 ^ 31 - 1.

(** Two's-complement reduction of a mathematical integer to an [int]. *)
Definition wrap_int (z : Z) : Z := (z + 2 ^ 31) mod 2 ^ 32 - 2 ^ 31.

Definition in_int (z : Z) : Prop := INT_MIN <= z <= INT_MAX.

Definition add (a b : Z) : Z := wrap_int (a + b).
Definition sub (a b : Z) : Z := wrap_int (a - b).
Definition mul (a b : Z) : Z := wrap_int (a * b).

(** The difference [a - b] of two [size_t] values: unsigned, so it wraps
    around when [a < b]. *)
Definition size_sub (a b : Z) : Z :=
  if a <? b then a - b + 2 ^ 64 else a - b.

End CInt.

(** ** [std::string] *)

Module StdString.

Definition size (s : string) : Z := Z.of_nat (String.length s).

Definition empty (s : string) : bool :=
  match s with EmptyString => true | String _ _ => false end.

(** [s.find(c)]: the index of the first [c], [None] for [npos]. *)
Fixpoint find (s : string) (c : ascii) : option Z :=
  match s with
  | EmptyString => None
  | String a rest =>
      if Ascii.eqb a c then Some 0
      else match find rest c with
           | Some i => Some (i + 1)
           | None => None
           end
  end.

(** [s.rfind(c)]: the index of the last [c], [None] for [npos]. *)
Fixpoint rfind (s : string) (c : ascii) : option Z :=
  match s with
  | EmptyString => None
  | String a rest =>
      match rfind rest c with
      | Some i => Some (i + 1)
      | None => if Ascii.eqb a c then Some 0 else None
      end
  end.

(** [s.substr(pos, n)]: throws [std::out_of_range] ([None]) when
    [pos > size()]; otherwise the characters from [pos], at most [n]
    of them.  Both arguments are [size_t] values. *)
Definition substr (s : string) (pos n : Z) : option string :=
  if pos <=? size s
  then Some (String.substring (Z.to_nat pos)
                              (Z.to_nat (Z.min n (size s - pos))) s)
  else None.

(** [s.substr(pos)], the count left to its default [npos]: everything
    from [pos]. *)
Definition substr_from (s : string) (pos : Z) : option string :=
  if pos <=? size s
  then Some (String.substring (Z.to_nat pos) (Z.to_nat (size s - pos)) s)
  else None.

(** [s[0]]: the first character, the terminating NUL of an empty string. *)
Definition front (s : string) : ascii :=
  match s with EmptyString => zero | String a _ => a end.

End StdString.

(** ** GLib character classes *)

Definition g_ascii_isalpha (c : ascii) : bool :=
  let n := N_of_ascii c in
  ((65 <=? n) && (n <=? 90) || (97 <=? n) && (n <=? 122))%N.

Definition g_ascii_toupper (c : ascii) : ascii :=
  let n := N_of_ascii c in
  if ((97 <=? n) && (n <=? 122))%N then ascii_of_N (n - 32) else c.

(** ** Abnormal ends

    [out_of_range] is the exception of [std::string::substr];
    [null_dereference] stands for a call through a null pointer, after
    which nothing more is done. *)

Inductive exn : Type :=
| out_of_range
| null_dereference.

Inductive result (A : Type) : Type :=
| Ok (a : A)
| Throw (e : exn).
Arguments Ok {A} a.
Arguments Throw {A} e.

Definition rbind {A B} (r : result A) (k : A -> result B) : result B :=
  match r with
  | Ok a => k a
  | Throw e => Throw e
  end.

Fixpoint rmap {A B} (f : A -> result B) (l : list A) : result (list B) :=
  match l with
  | [] => Ok []
  | x :: rest =>
      rbind (f x) (fun y => rbind (rmap f rest) (fun ys => Ok (y :: ys)))
  end.

(** ** Splitting helpers of the base libraries *)

(** Modelled from the spec: [bec::tokenize_string_list(str, quote_char,
    true, tokens)] of [grt/parse_utils.h], whose body is not part of this
    file.  The spec describes the split as taking the quote-delimited
    tokens of the string, each still carrying its two quotes (they are
    stripped by the caller); a comma inside the quotes belongs to the
    token.  [cur] is the token being read, [None] between tokens. *)
Fixpoint tokenize_from (quote_char : ascii) (cur : option string)
         (s : string) : list string :=
  match s with
  | EmptyString => []
  | String c rest =>
      match cur with
      | None =>
          if Ascii.eqb c quote_char
          then tokenize_from quote_char (Some (String c "")) rest
          else tokenize_from quote_char None rest
      | Some tok =>
          if Ascii.eqb c quote_char
          then (tok ++ String c "") :: tokenize_from quote_char None rest
          else tokenize_from quote_char (Some (tok ++ String c "")) rest
      end
  end.

Definition tokenize_string_list (str : string) (quote_char : ascii)
  : list string :=
  tokenize_from quote_char None str.

(** Modelled from the spec: [base::split_token_list(s, sep)] of the base
    string utilities, whose body is not part of this file.  The spec only
    speaks of the comma-separated value of a SET column and of its
    "split-by-comma" parts: the string is cut at every separator. *)
Fixpoint split_from (sep : ascii) (cur : string) (s : string) : list string :=
  match s with
  | EmptyString => [cur]
  | String c rest =>
      if Ascii.eqb c sep
      then cur :: split_from sep "" rest
      else split_from sep (cur ++ String c "") rest
  end.

Definition split_token_list (s : string) (sep : ascii) : list string :=
  split_from sep "" s.

(** ** [parse_enum_definition] and [format_label] *)

Definition strip_quotes (tok : string) : result string :=
  match StdString.substr tok 1 (CInt.size_sub (StdString.size tok) 2) with
  | Some s => Ok s
  | None => Throw out_of_range
  end.

Definition parse_enum_definition (full_type : string) : result (list string) :=
  let b := StdString.find full_type "(" in
  let e := StdString.rfind full_type ")" in
  match b, e with
  | Some b, Some e =>
      if e >? b then
        match StdString.substr full_type (b + 1) (e - b - 1) with
        | Some inner => rmap strip_quotes (tokenize_string_list inner "'")
        | None => Throw out_of_range
        end
      else Ok []
  | _, _ => Ok []
  end.

(** [flabel] holds at least the colon, so [flabel.substr(1)] is always
    defined (lemma [format_label_substr]) and the function cannot throw. *)
Definition format_label (label : string) : string :=
  let flabel := label ++ ":" in
  if g_ascii_isalpha (StdString.front flabel)
  then match StdString.substr_from flabel 1 with
       | Some tl => String (g_ascii_toupper (StdString.front flabel)) tl
       | None => flabel
       end
  else flabel.


(** ** Widgets

    The toolkit's widgets, reduced to the properties this file sets.
    [set_size(width, height)] takes the width first; [-1] leaves a
    dimension to the layout. *)

Record TextEntry := {
  entry_enabled : bool;
  entry_size : option (Z * Z);
  entry_text : string }.

Record Selector := {
  selector_items : list string;
  selector_enabled : bool;
  selector_value : string }.

(** A row of the checklist: column 0 is the check box, column 1 the label. *)
Record TreeNode := {
  node_bool0 : bool;
  node_string1 : string }.

Record TreeNodeView := {
  tree_nodes : list TreeNode;
  tree_size : option (Z * Z);
  tree_enabled : bool }.

Record TextBox := {
  tbox_enabled : bool;
  tbox_size : option (Z * Z);
  tbox_text : string }.

(** What a field view calls when the user edits it, and what the BLOB
    button calls: the panel binds both to a column index. *)
Inductive ChangeCallback : Type :=
| bind_update_value (column : Z).

Inductive ViewCallback : Type :=
| bind_open_field_editor (column : Z).

Record Button := {
  button_text : string;
  button_internal_padding : bool;
  button_clicked : ViewCallback }.

(** ** The field views *)

Inductive FieldView : Type :=
| StringFieldView (_label : string) (_change_callback : ChangeCallback)
                  (_entry : TextEntry) (_expands : bool)
| SelectorFieldView (_label : string) (_change_callback : ChangeCallback)
                    (_selector : Selector)
| SetFieldView (_label : string) (_change_callback : ChangeCallback)
               (_tree : TreeNodeView)
| TextFieldView (_label : string) (_change_callback : ChangeCallback)
                (_tbox : TextBox)
| BlobFieldView (_label : string) (_change_callback : ChangeCallback)
                (_blob : string) (_button : Button).

Definition new_StringFieldView (name : string) (max_length : Z)
           (editable : bool) (change_callback : ChangeCallback) : FieldView :=
  if max_length >? 64
  then StringFieldView name change_callback
         {| entry_enabled := editable; entry_size := None; entry_text := "" |}
         true
  else StringFieldView name change_callback
         {| entry_enabled := editable;
            entry_size := Some (Z.max (CInt.mul max_length 10) 60, -1);
            entry_text := "" |}
         false.

Definition new_SelectorFieldView (name : string) (items : list string)
           (editable : bool) (change_callback : ChangeCallback) : FieldView :=
  SelectorFieldView name change_callback
    {| selector_items := items; selector_enabled := editable;
       selector_value := "" |}.

Definition new_SetFieldView (name : string) (items : list string)
           (editable : bool) (change_callback : ChangeCallback) : FieldView :=
  let nodes :=
    map (fun i => {| node_bool0 := false; node_string1 := i |}) items in
  let height := CInt.wrap_int (Z.of_nat (List.length items) * 20) in
  SetFieldView name change_callback
    {| tree_nodes := nodes;
       tree_size := Some (250, if height >? 100 then 100 else height);
       tree_enabled := editable |}.

Definition new_TextFieldView (name : string) (editable : bool)
           (change_callback : ChangeCallback) : FieldView :=
  TextFieldView name change_callback
    {| tbox_enabled := editable; tbox_size := Some (-1, 60);
       tbox_text := "" |}.

Definition new_BlobFieldView (name : string) (editable : bool)
           (change_callback : ChangeCallback) (view_callback : ViewCallback)
  : FieldView :=
  BlobFieldView name change_callback "BLOB"
    {| button_text := "View..."; button_internal_padding := false;
       button_clicked := view_callback |}.

Definition label (v : FieldView) : string :=
  match v with
  | StringFieldView l _ _ _ | SelectorFieldView l _ _ | SetFieldView l _ _
  | TextFieldView l _ _ | BlobFieldView l _ _ _ => l
  end.

Definition expands (v : FieldView) : bool :=
  match v with
  | StringFieldView _ _ _ e => e
  | TextFieldView _ _ _ => true
  | SelectorFieldView _ _ _ | SetFieldView _ _ _ | BlobFieldView _ _ _ _ =>
      false
  end.

(** [SetFieldView::set_value]: a row is checked exactly when its label is
    one of the comma-separated parts of the value. *)
Definition mem_string (s : string) (l : list string) : bool :=
  existsb (String.eqb s) l.

Definition SetFieldView_set_value (tree : TreeNodeView) (value : string)
  : TreeNodeView :=
  let l := split_token_list value "," in
  {| tree_nodes :=
       map (fun node =>
              {| node_bool0 := mem_string (node_string1 node) l;
                 node_string1 := node_string1 node |})
           (tree_nodes tree);
     tree_size := tree_size tree;
     tree_enabled := tree_enabled tree |}.

(** [SetFieldView::changed]: the loop over the rows, [value] being the
    string built so far; the result is what the change callback receives. *)
Fixpoint changed_loop (nodes : list TreeNode) (value : string) : string :=
  match nodes with
  | [] => value
  | node :: rest =>
      if node_bool0 node
      then changed_loop rest
             ((if StdString.empty value then value else value ++ ",")
                ++ node_string1 node)
      else changed_loop rest value
  end.

Definition SetFieldView_changed (tree : TreeNodeView) : string :=
  changed_loop (tree_nodes tree) "".

Definition set_value (v : FieldView) (value : string) (is_null : bool)
  : FieldView :=
  match v with
  | StringFieldView l cb e x =>
      StringFieldView l cb
        {| entry_enabled := entry_enabled e; entry_size := entry_size e;
           entry_text := value |} x
  | SelectorFieldView l cb s =>
      SelectorFieldView l cb
        {| selector_items := selector_items s;
           selector_enabled := selector_enabled s;
           selector_value := value |}
  | SetFieldView l cb t => SetFieldView l cb (SetFieldView_set_value t value)
  | TextFieldView l cb t =>
      TextFieldView l cb
        {| tbox_enabled := tbox_enabled t; tbox_size := tbox_size t;
           tbox_text := value |}
  | BlobFieldView l cb _ b =>
      BlobFieldView l cb (if is_null then "NULL" else "BLOB") b
  end.

(** ** Field-type dispatch *)

Record FieldInfo := {
  schema : string;
  table : string;
  field : string;
  type : string;
  display_size : Z }.

Definition TextFieldView_set_size (v : FieldView) (w h : Z) : FieldView :=
  match v with
  | TextFieldView l cb t =>
      TextFieldView l cb
        {| tbox_enabled := tbox_enabled t; tbox_size := Some (w, h);
           tbox_text := tbox_text t |}
  | _ => v
  end.

Definition create (f : FieldInfo) (full_type : string) (editable : bool)
           (callback : ChangeCallback) (view_blob_callback : ViewCallback)
  : result FieldView :=
  if String.eqb (type f) "VARCHAR" then
    if display_size f >? 40 then
      let text := new_TextFieldView (format_label (field f)) editable callback in
      if display_size f >? 1000
      then Ok (TextFieldView_set_size text (-1) 200)
      else Ok text
    else
      Ok (new_StringFieldView (format_label (field f)) (display_size f)
                              editable callback)
  else if String.eqb (type f) "TEXT" then
    Ok (new_TextFieldView (format_label (field f)) editable callback)
  else if String.eqb (type f) "BLOB" then
    Ok (new_BlobFieldView (format_label (field f)) editable callback
                          view_blob_callback)
  else if String.eqb (type f) "ENUM" && negb (StdString.empty full_type) then
    rbind (parse_enum_definition full_type) (fun items =>
    Ok (new_SelectorFieldView (format_label (field f)) items editable callback))
  else if String.eqb (type f) "SET" && negb (StdString.empty full_type) then
    rbind (parse_enum_definition full_type) (fun items =>
    Ok (new_SetFieldView (format_label (field f)) items editable callback))
  else
    Ok (new_StringFieldView (format_label (field f)) (display_size f)
                            editable callback).

(** ** The recordset

    Modelled from the spec: the [Recordset] class of the sqlide back end,
    of which this file only sees the interface.  The spec describes it as
    an in-memory cursor over a result set with get and set by (row,
    column), row deletion, an "edited field" (row and column, the row
    being [-1] when nothing is selected), an optional update-notification
    hook and a refresh signal. *)

Record Cell := {
  cell_repr : string;
  cell_is_null : bool }.

Inductive DataStorage : Type :=
| Recordset_cdbc_storage (field_info : list FieldInfo)
| other_storage.

Record Recordset := {
  _edited_field_row : Z;
  _edited_field_col : Z;
  rows : list (list Cell);
  column_count : Z;
  (** whether the [update_edited_field] function object holds a callback *)
  update_edited_field : bool;
  (** the number of slots connected to [refresh_ui_signal] *)
  refresh_ui_signal : nat;
  data_storage : DataStorage }.

Module Rs.

Definition edited_field_row (r : Recordset) : Z := _edited_field_row r.
Definition edited_field_column (r : Recordset) : Z := _edited_field_col r.
Definition count (r : Recordset) : Z := Z.of_nat (List.length (rows r)).
Definition get_column_count (r : Recordset) : Z := column_count r.

Definition set_edited_field (row col : Z) (r : Recordset) : Recordset :=
  {| _edited_field_row := row;
     _edited_field_col := col;
     rows := rows r;
     column_count := column_count r;
     update_edited_field := update_edited_field r;
     refresh_ui_signal := refresh_ui_signal r;
     data_storage := data_storage r |}.

Definition with_rows (rs : list (list Cell)) (r : Recordset) : Recordset :=
  {| _edited_field_row := _edited_field_row r;
     _edited_field_col := _edited_field_col r;
     rows := rs;
     column_count := column_count r;
     update_edited_field := update_edited_field r;
     refresh_ui_signal := refresh_ui_signal r;
     data_storage := data_storage r |}.

Definition connect_refresh_ui (r : Recordset) : Recordset :=
  {| _edited_field_row := _edited_field_row r;
     _edited_field_col := _edited_field_col r;
     rows := rows r;
     column_count := column_count r;
     update_edited_field := update_edited_field r;
     refresh_ui_signal := S (refresh_ui_signal r);
     data_storage := data_storage r |}.

Definition cell (r : Recordset) (row col : Z) : option Cell :=
  if (row <? 0) || (col <? 0) then None
  else match nth_error (rows r) (Z.to_nat row) with
       | Some cells => nth_error cells (Z.to_nat col)
       | None => None
       end.

(** The text of a cell; the output string is left empty when there is
    no such cell. *)
Definition get_field_repr_no_truncate (r : Recordset) (row col : Z)
  : string :=
  match cell r row col with
  | Some c => cell_repr c
  | None => ""
  end.

Definition is_field_null (r : Recordset) (row col : Z) : bool :=
  match cell r row col with
  | Some c => cell_is_null c
  | None => true
  end.

Fixpoint update_nth {A} (n : nat) (f : A -> A) (l : list A) : list A :=
  match l, n with
  | [], _ => []
  | x :: rest, O => f x :: rest
  | x :: rest, S n' => x :: update_nth n' f rest
  end.

Fixpoint remove_nth {A} (n : nat) (l : list A) : list A :=
  match l, n with
  | [], _ => []
  | _ :: rest, O => rest
  | x :: rest, S n' => x :: remove_nth n' rest
  end.

Definition set_field (row col : Z) (value : string) (r : Recordset)
  : Recordset :=
  if (row <? 0) || (col <? 0) then r
  else with_rows
         (update_nth (Z.to_nat row)
            (update_nth (Z.to_nat col)
               (fun _ => {| cell_repr := value; cell_is_null := false |}))
            (rows r))
         r.

(** Row deletion; where the edited row goes afterwards is the
    recordset's own business, and it is left in place here. *)
Definition delete_node (row : Z) (r : Recordset) : Recordset :=
  if row <? 0 then r else with_rows (remove_nth (Z.to_nat row) (rows r)) r.

End Rs.

(** ** The SQL editor and its auxiliary connection *)

Record GrtVersion := {
  majorNumber : Z;
  minorNumber : Z;
  releaseNumber : Z }.

(** A [base::sqlstring]: the format with its [?] placeholders and the
    values streamed into it. *)
Record sqlstring := {
  sql_format : string;
  sql_args : list string }.

(** What the body of the [try] block meets: an exception before the
    statement is sent (no connection, no statement), an exception from the
    query or from reading its result, no first row, or a first row whose
    first column is returned. *)
Inductive DriverReply : Type :=
| connection_throws (what : string)
| query_throws (what : string)
| no_row
| first_row (column_type : string).

Record SqlEditorForm := {
  rdbms_version : GrtVersion;
  aux_connection : sqlstring -> DriverReply }.

(** Modelled from the spec: [bec::is_supported_mysql_version_at_least] of
    [grtdb/db_helpers.h], whose body is not part of this file.  The spec
    reads the call with (5, 5) as "the server version is not below 5.5":
    a comparison of the major and minor numbers. *)
Definition is_supported_mysql_version_at_least (v : GrtVersion)
           (major minor : Z) : bool :=
  (majorNumber v >? major)
  || ((majorNumber v =? major) && (minorNumber v >=? minor)).

(** ** The panel *)

Inductive ToolBarItemType : Type :=
| TitleItem | LabelItem | ActionItem | SeparatorItem.

Record ToolBarItem := {
  item_type : ToolBarItemType;
  item_name : string;
  item_text : string;
  item_tooltip : string;
  item_icon : string;
  item_enabled : bool }.

Inductive TableItemFlag : Type := HFillFlag | HExpandFlag.

Inductive TableChild : Type :=
| label_of (column : Z)
| value_of (column : Z).

Record TableCell := {
  cell_child : TableChild;
  cell_left : Z; cell_right : Z; cell_top : Z; cell_bottom : Z;
  cell_flags : list TableItemFlag }.

(** A weak reference to the recordset: empty, or pointing at the
    recordset object of the world (which may have been destroyed since). *)
Inductive weak_ptr : Type :=
| empty_ptr
| ptr_to_recordset.

Record ResultFormView := {
  _rset : weak_ptr;
  _fields : list FieldView;
  _table_row_count : Z;
  _table : list TableCell;
  _tbar : list ToolBarItem;
  (** position in [_tbar] of the item [_label_item] points at *)
  _label_item : nat;
  _editable : bool }.

(** Calls that leave the component. *)
Inductive Event : Type :=
| call_update_edited_field
| call_open_field_data_editor (row column : Z)
| call_executeQuery (q : sqlstring)
| call_log_exception (msg : string) (q : sqlstring) (what : string).

Record World := {
  (** the recordset object, [None] once it has been destroyed *)
  w_rset : option Recordset;
  w_form : ResultFormView;
  w_log : list Event }.

(** ** The monad of the panel's methods *)

Definition M (A : Type) : Type := World -> World * result A.

Definition ret {A} (a : A) : M A := fun w => (w, Ok a).

Definition bind {A B} (m : M A) (k : A -> M B) : M B :=
  fun w =>
    match m w with
    | (w', Ok a) => k a w'
    | (w', Throw e) => (w', Throw e)
    end.

Definition throw {A} (e : exn) : M A := fun w => (w, Throw e).

Definition lift {A} (r : result A) : M A := fun w => (w, r).

Declare Scope panel_scope.
Delimit Scope panel_scope with panel.
Notation "x <- m ;; k" := (bind m (fun x => k))
  (at level 61, m at next level, right associativity) : panel_scope.
Notation "m ;; k" := (bind m (fun _ => k))
  (at level 61, right associativity) : panel_scope.
Local Open Scope panel_scope.

Definition when (b : bool) (m : M unit) : M unit :=
  if b then m else ret tt.

Fixpoint for_each {A} (body : Z -> A -> M unit) (i : Z) (l : list A)
  : M unit :=
  match l with
  | [] => ret tt
  | x :: rest => body i x ;; for_each body (CInt.add i 1) rest
  end.

(** *** Access to the world *)

Definition with_form (f : ResultFormView -> ResultFormView) : M unit :=
  fun w => ({| w_rset := w_rset w; w_form := f (w_form w);
               w_log := w_log w |}, Ok tt).

Definition with_rset (f : Recordset -> Recordset) : M unit :=
  fun w => ({| w_rset := option_map f (w_rset w); w_form := w_form w;
               w_log := w_log w |}, Ok tt).

Definition emit (e : Event) : M unit :=
  fun w => ({| w_rset := w_rset w; w_form := w_form w;
               w_log := w_log w ++ [e] |}, Ok tt).

Definition get_form : M ResultFormView := fun w => (w, Ok (w_form w)).

(** [p.lock()]: the recordset if [p] points at it and it is still alive. *)
Definition lock (p : weak_ptr) : M (option Recordset) :=
  fun w => (w, Ok (match p with
                   | empty_ptr => None
                   | ptr_to_recordset => w_rset w
                   end)).

Definition lock_rset : M (option Recordset) :=
  form <- get_form ;; lock (_rset form).

(** *** The toolbar *)

Definition new_ToolBarItem (t : ToolBarItemType) : ToolBarItem :=
  {| item_type := t; item_name := ""; item_text := ""; item_tooltip := "";
     item_icon := ""; item_enabled := true |}.

Definition item_set_name (n : string) (i : ToolBarItem) : ToolBarItem :=
  {| item_type := item_type i; item_name := n; item_text := item_text i;
     item_tooltip := item_tooltip i; item_icon := item_icon i;
     item_enabled := item_enabled i |}.

Definition item_set_text (t : string) (i : ToolBarItem) : ToolBarItem :=
  {| item_type := item_type i; item_name := item_name i; item_text := t;
     item_tooltip := item_tooltip i; item_icon := item_icon i;
     item_enabled := item_enabled i |}.

Definition item_set_tooltip (t : string) (i : ToolBarItem) : ToolBarItem :=
  {| item_type := item_type i; item_name := item_name i;
     item_text := item_text i; item_tooltip := t; item_icon := item_icon i;
     item_enabled := item_enabled i |}.

Definition item_set_icon (p : string) (i : ToolBarItem) : ToolBarItem :=
  {| item_type := item_type i; item_name := item_name i;
     item_text := item_text i; item_tooltip := item_tooltip i;
     item_icon := p; item_enabled := item_enabled i |}.

Definition item_set_enabled (b : bool) (i : ToolBarItem) : ToolBarItem :=
  {| item_type := item_type i; item_name := item_name i;
     item_text := item_text i; item_tooltip := item_tooltip i;
     item_icon := item_icon i; item_enabled := b |}.

(** [ToolBar::find_item]: the position of the first item of that name. *)
Fixpoint find_item (tbar : list ToolBarItem) (name : string) : option nat :=
  match tbar with
  | [] => None
  | i :: rest =>
      if String.eqb (item_name i) name then Some O
      else option_map S (find_item rest name)
  end.

Definition action_item (name tooltip icon : string) : ToolBarItem :=
  item_set_icon icon
    (item_set_tooltip tooltip (item_set_name name (new_ToolBarItem ActionItem))).

(** The constructor: the toolbar, and an empty two-column table. *)
Definition new_ResultFormView (editable : bool) : ResultFormView :=
  let navigation :=
    [ item_set_text "Form Editor" (new_ToolBarItem TitleItem);
      new_ToolBarItem SeparatorItem;
      item_set_text "Navigate:" (new_ToolBarItem LabelItem);
      action_item "first" "Go to the first row in the recordset."
                  "record_first.png";
      action_item "back" "Go back one row in the recordset."
                  "record_back.png";
      item_set_name "location" (new_ToolBarItem LabelItem);
      action_item "next" "Go next one row in the recordset."
                  "record_next.png";
      action_item "last" "Go to the last row in the recordset."
                  "record_last.png" ] in
  let edit :=
    [ new_ToolBarItem SeparatorItem;
      item_set_text "Edit:" (new_ToolBarItem LabelItem);
      action_item "delete" "Delete current row from the recordset."
                  "record_del.png";
      action_item "last" "Add a new row to the recordset."
                  "record_add.png" ] in
  {| _rset := empty_ptr;
     _fields := [];
     _table_row_count := 0;
     _table := [];
     _tbar := if editable then navigation ++ edit else navigation;
     _label_item := 5%nat;
     _editable := editable |}.

Definition set_rset (p : weak_ptr) (f : ResultFormView) : ResultFormView :=
  {| _rset := p; _fields := _fields f;
     _table_row_count := _table_row_count f; _table := _table f;
     _tbar := _tbar f; _label_item := _label_item f;
     _editable := _editable f |}.

Definition set_fields (l : list FieldView) (f : ResultFormView)
  : ResultFormView :=
  {| _rset := _rset f; _fields := l;
     _table_row_count := _table_row_count f; _table := _table f;
     _tbar := _tbar f; _label_item := _label_item f;
     _editable := _editable f |}.

Definition set_table (n : Z) (t : list TableCell) (f : ResultFormView)
  : ResultFormView :=
  {| _rset := _rset f; _fields := _fields f;
     _table_row_count := n; _table := t;
     _tbar := _tbar f; _label_item := _label_item f;
     _editable := _editable f |}.

Definition set_tbar (t : list ToolBarItem) (f : ResultFormView)
  : ResultFormView :=
  {| _rset := _rset f; _fields := _fields f;
     _table_row_count := _table_row_count f; _table := _table f;
     _tbar := t; _label_item := _label_item f;
     _editable := _editable f |}.

(** [_tbar.find_item(name)->set_enabled(b)]; a missing item is a null
    pointer. *)
Definition tbar_set_enabled (name : string) (b : bool) : M unit :=
  form <- get_form ;;
  match find_item (_tbar form) name with
  | Some i =>
      with_form (fun f =>
        set_tbar (Rs.update_nth i (item_set_enabled b) (_tbar f)) f)
  | None => throw null_dereference
  end.

Definition label_item_set_text (t : string) : M unit :=
  with_form (fun f =>
    set_tbar (Rs.update_nth (_label_item f) (item_set_text t) (_tbar f)) f).

(** *** [display_record] *)

Definition string_of_int (z : Z) : string :=
  NilZero.string_of_int (Z.to_int z).

(** [base::strfmt("%i / %i", a, b)] *)
Definition strfmt_position (a b : Z) : string :=
  string_of_int a ++ " / " ++ string_of_int b.

(** The loop over [_fields], [c] being the column counter. *)
Fixpoint display_fields (r : Recordset) (c : Z) (fields : list FieldView)
  : list FieldView :=
  match fields with
  | [] => []
  | v :: rest =>
      let value :=
        Rs.get_field_repr_no_truncate r (Rs.edited_field_row r) c in
      set_value v value (Rs.is_field_null r (Rs.edited_field_row r) c)
        :: display_fields r (CInt.add c 1) rest
  end.

Definition display_record : M Z :=
  rset <- lock_rset ;;
  match rset with
  | Some r =>
      with_form (fun f => set_fields (display_fields r 0 (_fields f)) f) ;;
      label_item_set_text
        (strfmt_position (CInt.add (Rs.edited_field_row r) 1) (Rs.count r)) ;;
      tbar_set_enabled "first" (Rs.edited_field_row r >? 0) ;;
      tbar_set_enabled "back" (Rs.edited_field_row r >? 0) ;;
      tbar_set_enabled "next"
        (Rs.edited_field_row r <? CInt.sub (Rs.count r) 1) ;;
      tbar_set_enabled "last"
        (Rs.edited_field_row r <? CInt.sub (Rs.count r) 1) ;;
      ret 0
  | None => ret 0
  end.

(** *** [navigate], [update_value], [open_field_editor] *)

(** [rset->set_edited_field(row, rset->edited_field_column())] and the
    call of the hook when there is one. *)
Definition move_to (r : Recordset) (row : Z) : M unit :=
  with_rset (Rs.set_edited_field row (Rs.edited_field_column r)) ;;
  when (update_edited_field r) (emit call_update_edited_field).

Definition navigate (item : ToolBarItem) : M unit :=
  let name := item_name item in
  rset <- lock_rset ;;
  match rset with
  | Some r =>
      let row := Rs.edited_field_row r in
      if row <? 0 then ret tt
      else
        (if String.eqb name "delete" then
           with_rset (Rs.delete_node row)
         else if String.eqb name "back" then
           let row := CInt.sub row 1 in
           let row := if row <? 0 then 0 else row in
           move_to r row
         else if String.eqb name "first" then
           move_to r 0
         else if String.eqb name "next" then
           let row := CInt.add row 1 in
           let row := if row >=? Rs.count r
                      then CInt.sub (Rs.count r) 1 else row in
           move_to r row
         else if String.eqb name "last" then
           move_to r (CInt.sub (Rs.count r) 1)
         else ret tt) ;;
        display_record ;;
        ret tt
  | None => ret tt
  end.

Definition update_value (column : Z) (value : string) : M unit :=
  rset <- lock_rset ;;
  match rset with
  | Some r =>
      let row := Rs.edited_field_row r in
      when ((Rs.count r >? row) && (row >=? 0))
           (with_rset (Rs.set_field row column value))
  | None => ret tt
  end.

Definition open_field_editor (column : Z) : M unit :=
  rset <- lock_rset ;;
  match rset with
  | Some r =>
      let row := Rs.edited_field_row r in
      when ((row <? Rs.count r) && (row >=? 0))
           (emit (call_open_field_data_editor row column))
  | None => ret tt
  end.

(** What a user edit of a field view does: the view's [changed] handler
    reads the widget and hands the text to the change callback. *)
Definition changed (v : FieldView) : option (ChangeCallback * string) :=
  match v with
  | StringFieldView _ cb e _ => Some (cb, entry_text e)
  | SelectorFieldView _ cb s => Some (cb, selector_value s)
  | SetFieldView _ cb t => Some (cb, SetFieldView_changed t)
  | TextFieldView _ cb t => Some (cb, tbox_text t)
  | BlobFieldView _ _ _ _ => None
  end.

Definition call_change_callback (cb : ChangeCallback) (s : string) : M unit :=
  match cb with bind_update_value column => update_value column s end.

Definition call_view_callback (cb : ViewCallback) : M unit :=
  match cb with bind_open_field_editor column => open_field_editor column end.

(** *** [get_full_column_type] and [init_for_resultset] *)

Definition column_type_query (schema table column : string) : sqlstring :=
  {| sql_format :=
       "SELECT COLUMN_TYPE FROM INFORMATION_SCHEMA.COLUMNS WHERE table_schema = ? and table_name = ? and column_name = ?";
     sql_args := [schema; table; column] |}.

Definition get_full_column_type (editor : SqlEditorForm)
           (schema table column : string) : M string :=
  if is_supported_mysql_version_at_least (rdbms_version editor) 5 5 then
    let q := column_type_query schema table column in
    match aux_connection editor q with
    | connection_throws what =>
        emit (call_log_exception "Exception getting column information: "
                                 q what) ;;
        ret ""
    | query_throws what =>
        emit (call_executeQuery q) ;;
        emit (call_log_exception "Exception getting column information: "
                                 q what) ;;
        ret ""
    | no_row => emit (call_executeQuery q) ;; ret ""
    | first_row column_type => emit (call_executeQuery q) ;; ret column_type
    end
  else ret "".

(** The body of the loop over the field infos, [i] being the column. *)
Definition add_field (editor : SqlEditorForm) (i : Z) (iter : FieldInfo)
  : M unit :=
  full_type <-
    (if (String.eqb (type iter) "ENUM" || String.eqb (type iter) "SET")
        && negb (StdString.empty (table iter))
     then get_full_column_type editor (schema iter) (table iter) (field iter)
     else ret "") ;;
  form <- get_form ;;
  fview <- lift (create iter full_type (_editable form)
                        (bind_update_value i) (bind_open_field_editor i)) ;;
  with_form (fun f =>
    set_table (_table_row_count f)
      (_table f ++
       [ {| cell_child := label_of i;
            cell_left := 0; cell_right := 1;
            cell_top := i; cell_bottom := CInt.add i 1;
            cell_flags := [HFillFlag] |};
         {| cell_child := value_of i;
            cell_left := 1; cell_right := 2;
            cell_top := i; cell_bottom := CInt.add i 1;
            cell_flags :=
              HFillFlag :: (if expands fview then [HExpandFlag] else []) |} ])
      f) ;;
  with_form (fun f => set_fields (_fields f ++ [fview]) f).

(** The [_refresh_ui_connection] member is only ever disconnected (the
    connection made here is not kept in it), so it carries no state. *)
Definition init_for_resultset (rset_ptr : weak_ptr) (editor : SqlEditorForm)
  : M unit :=
  rset <- lock rset_ptr ;;
  with_form (set_rset rset_ptr) ;;
  match rset with
  | Some r =>
      with_rset Rs.connect_refresh_ui ;;
      let cols := Rs.get_column_count r in
      with_form (fun f => set_table cols (_table f) f) ;;
      when ((Rs.edited_field_row r <? 0) && (Rs.count r >? 0))
           (with_rset (Rs.set_edited_field 0 0) ;;
            when (update_edited_field r) (emit call_update_edited_field)) ;;
      match data_storage r with
      | Recordset_cdbc_storage field_info =>
          for_each (add_field editor) 0 field_info
      | other_storage => throw null_dereference
      end
  | None => ret tt
  end.

(** ** Vocabulary of the statements *)

(** A token as the tokenizer hands it over: the body between two quotes. *)
Definition quoted (q : ascii) (body : string) : string :=
  String q (body ++ String q "").

Definition occurs (c : ascii) (s : string) : Prop :=
  In c (list_ascii_of_string s).

Definition is_lower (c : ascii) : bool :=
  ((97 <=? N_of_ascii c) && (N_of_ascii c <=? 122))%N.

Definition is_upper (c : ascii) : bool :=
  ((65 <=? N_of_ascii c) && (N_of_ascii c <=? 90))%N.

Definition is_TextFieldView (v : FieldView) : bool :=
  match v with TextFieldView _ _ _ => true | _ => false end.

Definition is_StringFieldView (v : FieldView) : bool :=
  match v with StringFieldView _ _ _ _ => true | _ => false end.

(** The size given to the value widget, as (width, height). *)
Definition value_size (v : FieldView) : option (Z * Z) :=
  match v with
  | StringFieldView _ _ e _ => entry_size e
  | SetFieldView _ _ t => tree_size t
  | TextFieldView _ _ t => tbox_size t
  | SelectorFieldView _ _ _ | BlobFieldView _ _ _ _ => None
  end.

Definition value_width (v : FieldView) : option Z :=
  option_map fst (value_size v).

Definition value_height (v : FieldView) : option Z :=
  option_map snd (value_size v).

(** A column [c] of table [test.t], for the examples. *)
Definition sample_column (type : string) (display_size : Z) : FieldInfo :=
  {| schema := "test"; table := "t"; field := "c";
     type := type; display_size := display_size |}.

(** The world after more calls have left the component. *)
Definition logged (w : World) (evs : list Event) : World :=
  {| w_rset := w_rset w; w_form := w_form w; w_log := w_log w ++ evs |}.

(** What the call of the recordset's hook leaves in the log. *)
Definition hook_calls (r : Recordset) : list Event :=
  if update_edited_field r then [call_update_edited_field] else [].

(** The navigation table of the specification: the row an action leads
    to, from the edited row and the row count. *)
Definition nav_target (name : string) (row count : Z) : option Z :=
  if String.eqb name "first" then Some 0
  else if String.eqb name "back" then Some (Z.max (row - 1) 0)
  else if String.eqb name "next" then Some (Z.min (row + 1) (count - 1))
  else if String.eqb name "last" then Some (count - 1)
  else None.

(** The world once recordset [r] has been moved to [row], its edited
    column kept and its hook called. *)
Definition moved (w : World) (r : Recordset) (row : Z) : World :=
  {| w_rset := Some (Rs.set_edited_field row (Rs.edited_field_column r) r);
     w_form := w_form w;
     w_log := w_log w ++ hook_calls r |}.

(** The world of [init_for_resultset] at the point where the field views
    are about to be built, when row 0 had to be selected. *)
Definition first_row_selected (w : World) (r : Recordset) : World :=
  {| w_rset := Some (Rs.set_edited_field 0 0 (Rs.connect_refresh_ui r));
     w_form := set_table (Rs.get_column_count r) (_table (w_form w))
                 (set_rset ptr_to_recordset (w_form w));
     w_log := w_log w ++ hook_calls r |}.

(** The rest of [init_for_resultset]: the loop that builds the views. *)
Definition build_field_views (editor : SqlEditorForm) (r : Recordset)
  : M unit :=
  match data_storage r with
  | Recordset_cdbc_storage field_info =>
      for_each (add_field editor) 0 field_info
  | other_storage => throw null_dereference
  end.

(** The calls made on behalf of [get_full_column_type]. *)
Definition driver_event (e : Event) : Prop :=
  match e with
  | call_executeQuery _ | call_log_exception _ _ _ => True
  | call_update_edited_field | call_open_field_data_editor _ _ => False
  end.

Definition version_below (v : GrtVersion) (major minor : Z) : Prop :=
  majorNumber v < major \/ (majorNumber v = major /\ minorNumber v < minor).

(** [m] takes every world to one related to it by [R], however it ends. *)
Definition preserves {A} (R : World -> World -> Prop) (m : M A) : Prop :=
  forall w, R w (fst (m w)).

(** Only the panel changed: same recordset, same log, same weak
    reference. *)
Definition panel_only (w w' : World) : Prop :=
  w_rset w' = w_rset w /\ w_log w' = w_log w
  /\ _rset (w_form w') = _rset (w_form w).

(** The recordset is untouched and the log grew by driver calls only. *)
Definition driver_only (w w' : World) : Prop :=
  w_rset w' = w_rset w
  /\ exists evs, w_log w' = (w_log w ++ evs)%list /\ Forall driver_event evs.

(** A recordset of three rows and three columns (VARCHAR(20), TEXT and
    ENUM) with its hook installed, edited at [row], column 1; and worlds
    around it, for the examples. *)
Definition sample_recordset (row : Z) : Recordset :=
  {| _edited_field_row := row;
     _edited_field_col := 1;
     rows :=
       [ [ {| cell_repr := "ann"; cell_is_null := false |};
           {| cell_repr := "first"; cell_is_null := false |};
           {| cell_repr := "a"; cell_is_null := false |} ];
         [ {| cell_repr := "bob"; cell_is_null := false |};
           {| cell_repr := "second"; cell_is_null := false |};
           {| cell_repr := "b"; cell_is_null := false |} ];
         [ {| cell_repr := "cy"; cell_is_null := false |};
           {| cell_repr := ""; cell_is_null := true |};
           {| cell_repr := "a"; cell_is_null := false |} ] ];
     column_count := 3;
     update_edited_field := true;
     refresh_ui_signal := 0;
     data_storage :=
       Recordset_cdbc_storage
         [ sample_column "VARCHAR" 20; sample_column "TEXT" 65535;
           sample_column "ENUM" 1 ] |}.

Definition sample_world (row : Z) : World :=
  {| w_rset := Some (sample_recordset row);
     w_form := set_rset ptr_to_recordset (new_ResultFormView true);
     w_log := [] |}.

Definition expired_world : World :=
  {| w_rset := None;
     w_form := set_rset ptr_to_recordset (new_ResultFormView true);
     w_log := [] |}.

Definition sample_editor (major minor : Z) (reply : DriverReply)
  : SqlEditorForm :=
  {| rdbms_version := {| majorNumber := major; minorNumber := minor;
                         releaseNumber := 0 |};
     aux_connection := fun _ => reply |}.

(** *** The redisplay as a list of steps

    [display_record], once it holds the recordset, is a list of steps
    that each rewrite the panel or stop at a null pointer.  The
    definitions below name these steps, so that running them twice can be
    compared with running them once. *)

(** [m] returns normally and leaves the world as it is. *)
Definition fixes (m : M unit) (w : World) : Prop := m w = (w, Ok tt).

Fixpoint run_then {A} (steps : list (M unit)) (k : M A) : M A :=
  match steps with
  | [] => k
  | s :: rest => s ;; run_then rest k
  end.

Definition display_steps (r : Recordset) : list (M unit) :=
  [ with_form (fun f => set_fields (display_fields r 0 (_fields f)) f);
    label_item_set_text
      (strfmt_position (CInt.add (Rs.edited_field_row r) 1) (Rs.count r));
    tbar_set_enabled "first" (Rs.edited_field_row r >? 0);
    tbar_set_enabled "back" (Rs.edited_field_row r >? 0);
    tbar_set_enabled "next" (Rs.edited_field_row r <? CInt.sub (Rs.count r) 1);
    tbar_set_enabled "last" (Rs.edited_field_row r <? CInt.sub (Rs.count r) 1) ].

(** A step that only rewrites the panel, or finds a null pointer. *)
Definition form_step (g : ResultFormView -> option ResultFormView) : M unit :=
  fun w =>
    match g (w_form w) with
    | Some f' => ({| w_rset := w_rset w; w_form := f'; w_log := w_log w |}, Ok tt)
    | None => (w, Throw null_dereference)
    end.

Definition enable (name : string) (b : bool) (f : ResultFormView) : option ResultFormView :=
  match find_item (_tbar f) name with
  | Some i => Some (set_tbar (Rs.update_nth i (item_set_enabled b) (_tbar f)) f)
  | None => None
  end.


Definition show_fields (r : Recordset) (f : ResultFormView)
  : option ResultFormView :=
  Some (set_fields (display_fields r 0 (_fields f)) f).

Definition show_position (r : Recordset) (f : ResultFormView)
  : option ResultFormView :=
  Some (set_tbar
          (Rs.update_nth (_label_item f)
             (item_set_text
                (strfmt_position (CInt.add (Rs.edited_field_row r) 1)
                                 (Rs.count r)))
             (_tbar f)) f).

Definition enabled_for (r : Recordset) (name : string) : bool :=
  if String.eqb name "first" || String.eqb name "back"
  then Rs.edited_field_row r >? 0
  else Rs.edited_field_row r <? CInt.sub (Rs.count r) 1.

Definition display_shape (r : Recordset)
           (g : ResultFormView -> option ResultFormView) : Prop :=
  g = show_fields r \/ g = show_position r
  \/ exists name, g = enable name (enabled_for r name).

(** ** Vocabulary of the further properties *)

(** The world with another recordset in the place of the observed one. *)
Definition with_recordset (w : World) (r : Recordset) : World :=
  {| w_rset := Some r; w_form := w_form w; w_log := w_log w |}.

(** The world with another panel. *)
Definition with_panel (w : World) (f : ResultFormView) : World :=
  {| w_rset := w_rset w; w_form := f; w_log := w_log w |}.

(** A list of labels without the empty ones it starts with. *)
Fixpoint drop_leading_empty (l : list string) : list string :=
  match l with
  | [] => []
  | x :: rest => if StdString.empty x then drop_leading_empty rest else l
  end.

Definition change_callback (v : FieldView) : ChangeCallback :=
  match v with
  | StringFieldView _ cb _ _ | SelectorFieldView _ cb _ | SetFieldView _ cb _
  | TextFieldView _ cb _ | BlobFieldView _ cb _ _ => cb
  end.

(** Whether the value widget accepts input; the BLOB placeholder has no
    such state. *)
Definition enabled (v : FieldView) : option bool :=
  match v with
  | StringFieldView _ _ e _ => Some (entry_enabled e)
  | SelectorFieldView _ _ s => Some (selector_enabled s)
  | SetFieldView _ _ t => Some (tree_enabled t)
  | TextFieldView _ _ t => Some (tbox_enabled t)
  | BlobFieldView _ _ _ _ => None
  end.

(** What the view button of a BLOB placeholder calls; the other views
    have no such button. *)
Definition view_callback (v : FieldView) : option ViewCallback :=
  match v with
  | BlobFieldView _ _ _ b => Some (button_clicked b)
  | _ => None
  end.

Definition is_BlobFieldView (v : FieldView) : bool :=
  match v with BlobFieldView _ _ _ _ => true | _ => false end.

(** The two table cells [init_for_resultset] adds for the view of column
    [i]: its label in table column 0 and its value widget in column 1. *)
Definition table_cells (i : Z) (v : FieldView) : list TableCell :=
  [ {| cell_child := label_of i;
       cell_left := 0; cell_right := 1;
       cell_top := i; cell_bottom := CInt.add i 1;
       cell_flags := [HFillFlag] |};
    {| cell_child := value_of i;
       cell_left := 1; cell_right := 2;
       cell_top := i; cell_bottom := CInt.add i 1;
       cell_flags :=
         HFillFlag :: (if expands v then [HExpandFlag] else []) |} ].

(** The cells of the views of columns [i], [i + 1], ... *)
Fixpoint placed (i : Z) (views : list FieldView) : list TableCell :=
  match views with
  | [] => []
  | v :: rest => (table_cells i v ++ placed (i + 1) rest)%list
  end.

(** The panel with one more view and its two cells. *)
Definition place (i : Z) (v : FieldView) (f : ResultFormView)
  : ResultFormView :=
  set_fields (_fields f ++ [v])
    (set_table (_table_row_count f) (_table f ++ table_cells i v) f).

(** The world of [init_for_resultset] at the point where the field views
    are about to be built, when no row had to be selected. *)
Definition bound_to (w : World) (r : Recordset) : World :=
  {| w_rset := Some (Rs.connect_refresh_ui r);
     w_form := set_table (Rs.get_column_count r) (_table (w_form w))
                 (set_rset ptr_to_recordset (w_form w));
     w_log := w_log w |}.

Definition tbar_names (f : ResultFormView) : list string :=
  map item_name (_tbar f).

(** Between two panels only what is displayed may differ: the values of
    the field views, the texts of the toolbar items and whether they are
    enabled. *)
Definition same_layout (f f' : ResultFormView) : Prop :=
  _rset f' = _rset f
  /\ _table f' = _table f
  /\ _table_row_count f' = _table_row_count f
  /\ _label_item f' = _label_item f
  /\ _editable f' = _editable f
  /\ map (fun v => (label v, change_callback v, expands v, enabled v,
                    value_size v)) (_fields f')
     = map (fun v => (label v, change_callback v, expands v, enabled v,
                      value_size v)) (_fields f)
  /\ map (fun i => (item_type i, item_name i, item_tooltip i, item_icon i))
         (_tbar f')
     = map (fun i => (item_type i, item_name i, item_tooltip i, item_icon i))
           (_tbar f).


(** The toolbar has the same items, by name and in order. *)
Definition names_kept (w w' : World) : Prop :=
  tbar_names (w_form w') = tbar_names (w_form w)
  /\ _label_item (w_form w') = _label_item (w_form w).

(** The field views are the same, values included. *)
Definition fields_kept (w w' : World) : Prop :=
  _fields (w_form w') = _fields (w_form w).

(** The sample world once the panel has been initialised on a 5.6
    server. *)
Definition sample_panel (row : Z) : World :=
  fst (init_for_resultset ptr_to_recordset
         (sample_editor 5 6 (first_row "enum('a','b')"))
         (sample_world row)).

(** The toolbar [display_record] leaves when it finds its four items
    at the positions the constructor gave them, [li] being the position
    of the location label. *)
Definition displayed_tbar (r : Recordset) (li : nat)
           (tbar : list ToolBarItem) : list ToolBarItem :=
  Rs.update_nth 7
    (item_set_enabled (Rs.edited_field_row r <? CInt.sub (Rs.count r) 1))
    (Rs.update_nth 6
       (item_set_enabled (Rs.edited_field_row r <? CInt.sub (Rs.count r) 1))
       (Rs.update_nth 4 (item_set_enabled (Rs.edited_field_row r >? 0))
          (Rs.update_nth 3 (item_set_enabled (Rs.edited_field_row r >? 0))
             (Rs.update_nth li
                (item_set_text
                   (strfmt_position (CInt.add (Rs.edited_field_row r) 1)
                                    (Rs.count r)))
                tbar)))).

(** The calls the toolkit and the editor make on the panel, and a
    session of such calls, each run from the world the one before left
    (also when that one failed). *)
Inductive operation : Type :=
| op_navigate (item : ToolBarItem)
| op_display_record
| op_update_value (column : Z) (value : string)
| op_open_field_editor (column : Z)
| op_init_for_resultset (rset_ptr : weak_ptr) (editor : SqlEditorForm).

Definition run_operation (o : operation) : M unit :=
  match o with
  | op_navigate item => navigate item
  | op_display_record => display_record ;; ret tt
  | op_update_value column value => update_value column value
  | op_open_field_editor column => open_field_editor column
  | op_init_for_resultset rset_ptr editor =>
      init_for_resultset rset_ptr editor
  end.

Fixpoint run_operations (ops : list operation) (w : World) : World :=
  match ops with
  | [] => w
  | o :: rest => run_operations rest (fst (run_operation o w))
  end.

(** ** Facts about the helpers *)

Lemma wrap_int_id z : CInt.in_int z -> CInt.wrap_int z = z.
Proof.
  unfold CInt.in_int, CInt.INT_MIN, CInt.INT_MAX, CInt.wrap_int. intros H.
  rewrite Z.mod_small; lia.
Qed.

Lemma wrap_int_range z : CInt.in_int (CInt.wrap_int z).
Proof.
  unfold CInt.in_int, CInt.INT_MIN, CInt.INT_MAX, CInt.wrap_int.
  pose proof (Z.mod_pos_bound (z + 2 ^ 31) (2 ^ 32) ltac:(lia)). lia.
Qed.

Lemma length_app (s t : string) :
  String.length (s ++ t) = (String.length s + String.length t)%nat.
Proof. induction s as [|c s IH]; simpl; [reflexivity | now rewrite IH]. Qed.

Lemma size_app s t :
  StdString.size (s ++ t) = StdString.size s + StdString.size t.
Proof. unfold StdString.size. rewrite length_app. lia. Qed.

Lemma size_nonneg s : 0 <= StdString.size s.
Proof. unfold StdString.size. lia. Qed.

Lemma substring_skip p : forall m s,
  substring (String.length p) m (p ++ s) = substring 0 m s.
Proof.
  induction p as [|c p IH]; intros m s; simpl; [reflexivity | apply IH].
Qed.

Lemma substring_prefix s : forall t,
  substring 0 (String.length s) (s ++ t) = s.
Proof.
  induction s as [|c s IH]; intros t; simpl.
  - destruct t; reflexivity.
  - now rewrite IH.
Qed.

Lemma substring_all s : substring 0 (String.length s) s = s.
Proof.
  induction s as [|c s IH]; simpl; [reflexivity | now rewrite IH].
Qed.

Lemma substr_middle p s t :
  StdString.substr (p ++ s ++ t) (StdString.size p) (StdString.size s) = Some s.
Proof.
  unfold StdString.substr. rewrite !size_app.
  pose proof (size_nonneg s). pose proof (size_nonneg t).
  destruct (Z.leb_spec (StdString.size p)
              (StdString.size p + (StdString.size s + StdString.size t)));
    [|lia].
  f_equal. unfold StdString.size.
  rewrite Z.min_l by (unfold StdString.size in *; lia).
  rewrite !Nat2Z.id. rewrite substring_skip. apply substring_prefix.
Qed.

Lemma app_assoc_str (a b c : string) : ((a ++ b) ++ c = a ++ (b ++ c))%string.
Proof. induction a as [|x a IH]; simpl; [reflexivity | now rewrite IH]. Qed.

Lemma app_empty_r (a : string) : (a ++ "")%string = a.
Proof. induction a as [|x a IH]; simpl; [reflexivity | now rewrite IH]. Qed.

(** *** [find] and [rfind] *)

Lemma find_first p c s :
  ~ occurs c p ->
  StdString.find (p ++ String c s) c = Some (StdString.size p).
Proof.
  unfold occurs. induction p as [|a p IH]; simpl; intros H.
  - now rewrite Ascii.eqb_refl.
  - destruct (Ascii.eqb_spec a c) as [->|Hne]; [exfalso; auto|].
    rewrite IH by auto. f_equal. unfold StdString.size. simpl String.length. lia.
Qed.

Lemma find_None s c : StdString.find s c = None <-> ~ occurs c s.
Proof.
  unfold occurs. induction s as [|a s IH]; simpl.
  - split; auto.
  - destruct (Ascii.eqb_spec a c) as [->|Hne].
    + split; [discriminate | intros H; exfalso; auto].
    + destruct (StdString.find s c) as [i|].
      * split; [discriminate|]. intros H. exfalso.
        assert (Hs : ~ In c (list_ascii_of_string s)) by auto.
        apply IH in Hs. discriminate.
      * split; [|reflexivity]. intros _ [E|Hin]; [congruence|].
        now apply (proj1 IH).
Qed.

Lemma rfind_None s c : StdString.rfind s c = None <-> ~ occurs c s.
Proof.
  unfold occurs. induction s as [|a s IH]; simpl.
  - split; auto.
  - destruct (StdString.rfind s c) as [i|].
    + split; [discriminate|]. intros H. exfalso.
      assert (Hs : ~ In c (list_ascii_of_string s)) by auto.
      apply IH in Hs. discriminate.
    + destruct (Ascii.eqb_spec a c) as [->|Hne].
      * split; [discriminate | intros H; exfalso; auto].
      * split; [|reflexivity]. intros _ [E|Hin]; [congruence|].
        now apply (proj1 IH).
Qed.

Lemma rfind_last p c s :
  ~ occurs c s ->
  StdString.rfind (p ++ String c s) c = Some (StdString.size p).
Proof.
  intros H. induction p as [|a p IH]; simpl.
  - apply rfind_None in H. rewrite H. now rewrite Ascii.eqb_refl.
  - rewrite IH. f_equal. unfold StdString.size. simpl String.length. lia.
Qed.

Lemma find_le_rfind s c b e :
  StdString.find s c = Some b -> StdString.rfind s c = Some e -> b <= e.
Proof.
  revert b e. induction s as [|a s IH]; simpl; intros b e; [discriminate|].
  destruct (Ascii.eqb_spec a c) as [->|Hne].
  - intros [= <-]. destruct (StdString.rfind s c) as [i|] eqn:Er.
    + intros [= <-]. assert (0 <= i); [|lia].
      clear - Er. revert i Er. induction s as [|x s IH]; simpl; [discriminate|].
      intros i. destruct (StdString.rfind s c) as [j|].
      * intros [= <-]. specialize (IH j eq_refl). lia.
      * destruct (Ascii.eqb x c); [intros [= <-]; lia | discriminate].
    + intros [= <-]. lia.
  - destruct (StdString.find s c) as [i|]; [|discriminate].
    intros [= <-]. destruct (StdString.rfind s c) as [j|]; [|discriminate].
    intros [= <-]. specialize (IH i j eq_refl eq_refl). lia.
Qed.

(** *** The tokenizer and the stripping of the quotes *)

Lemma tokenize_from_quoted q s : forall cur,
  match cur with
  | None => True
  | Some tok => exists b, tok = String q b
  end ->
  exists bodies, tokenize_from q cur s = map (quoted q) bodies.
Proof.
  induction s as [|c s IH]; intros cur Hcur; simpl.
  - exists []. now destruct cur.
  - destruct cur as [tok|].
    + destruct Hcur as [b ->]. destruct (Ascii.eqb_spec c q) as [->|Hne].
      * destruct (IH None I) as [bodies ->].
        exists (b :: bodies). reflexivity.
      * apply IH. simpl. eauto.
    + destruct (Ascii.eqb_spec c q) as [->|Hne]; apply IH; simpl; eauto.
Qed.

Lemma rfind_lt s c e : StdString.rfind s c = Some e -> 0 <= e < StdString.size s.
Proof.
  revert e. induction s as [|a s IH]; simpl; intros e; [discriminate|].
  unfold StdString.size in *. simpl String.length.
  destruct (StdString.rfind s c) as [j|].
  - intros [= <-]. specialize (IH j eq_refl). lia.
  - destruct (Ascii.eqb a c); [intros [= <-]; lia | discriminate].
Qed.

Lemma tokenize_string_list_quoted str q :
  exists bodies, tokenize_string_list str q = map (quoted q) bodies.
Proof. apply tokenize_from_quoted. exact I. Qed.

Lemma strip_quotes_quoted q body : strip_quotes (quoted q body) = Ok body.
Proof.
  unfold strip_quotes, quoted.
  change (String q (body ++ String q ""))
    with (String q "" ++ body ++ String q "").
  assert (Hsz : StdString.size (String q "" ++ body ++ String q "")
                = StdString.size body + 2).
  { rewrite !size_app. unfold StdString.size. simpl String.length. lia. }
  rewrite Hsz. pose proof (size_nonneg body).
  unfold CInt.size_sub.
  destruct (Z.ltb_spec (StdString.size body + 2) 2); [lia|].
  replace (StdString.size body + 2 - 2) with (StdString.size body) by lia.
  change 1 with (StdString.size (String q "")).
  now rewrite substr_middle.
Qed.

Lemma rmap_strip_quotes q bodies :
  rmap strip_quotes (map (quoted q) bodies) = Ok bodies.
Proof.
  induction bodies as [|b bodies IH]; simpl; [reflexivity|].
  rewrite strip_quotes_quoted. simpl. rewrite IH. reflexivity.
Qed.

(** [parse_enum_definition] never throws: the tokens it strips always
    carry their two quotes. *)
Lemma parse_enum_definition_total full_type :
  exists items, parse_enum_definition full_type = Ok items.
Proof.
  unfold parse_enum_definition.
  destruct (StdString.find full_type "(") as [b|]; [|eauto].
  destruct (StdString.rfind full_type ")") as [e|] eqn:Er; [|eauto].
  destruct (Z.gtb_spec e b); [|eauto].
  destruct (StdString.substr full_type (b + 1) (e - b - 1)) as [inner|] eqn:E.
  - destruct (tokenize_string_list_quoted inner "'") as [bodies ->].
    rewrite rmap_strip_quotes. eauto.
  - (* [b + 1 <= e < size], so the substring is defined *)
    exfalso. revert E. unfold StdString.substr.
    pose proof (rfind_lt _ _ _ Er).
    destruct (Z.leb_spec (b + 1) (StdString.size full_type));
      [discriminate | lia].
Qed.

Lemma tokenize_body q tok body rest :
  ~ occurs q body ->
  tokenize_from q (Some tok) (body ++ String q rest)
  = (tok ++ body ++ String q "") :: tokenize_from q None rest.
Proof.
  unfold occurs. revert tok.
  induction body as [|c body IH]; intros tok H; simpl.
  - now rewrite Ascii.eqb_refl.
  - destruct (Ascii.eqb_spec c q) as [->|Hne]; [exfalso; apply H; now left|].
    rewrite IH by (intros Hin; apply H; now right).
    now rewrite app_assoc_str.
Qed.

Lemma tokenize_quoted q body rest :
  ~ occurs q body ->
  tokenize_from q None (quoted q body ++ rest)
  = quoted q body :: tokenize_from q None rest.
Proof.
  intros H. unfold quoted. simpl. rewrite Ascii.eqb_refl.
  rewrite app_assoc_str. simpl. now rewrite tokenize_body.
Qed.

Lemma tokenize_quoted_list q bodies :
  q <> ","%char ->
  Forall (fun b => ~ occurs q b) bodies ->
  tokenize_string_list (String.concat "," (map (quoted q) bodies)) q
  = map (quoted q) bodies.
Proof.
  intros Hq. unfold tokenize_string_list.
  induction 1 as [|b bodies Hb Hbs IH]; [reflexivity|].
  destruct bodies as [|b' bodies].
  - cbn [map String.concat].
    rewrite <- (app_empty_r (quoted q b)) at 1.
    now rewrite tokenize_quoted.
  - change (String.concat "," (map (quoted q) (b :: b' :: bodies)))
      with (quoted q b ++ String "," (String.concat ","
                                        (map (quoted q) (b' :: bodies)))).
    rewrite tokenize_quoted by assumption.
    cbn [map]. f_equal.
    cbn [tokenize_from].
    destruct (Ascii.eqb_spec "," q) as [E|_]; [congruence|].
    exact IH.
Qed.

Lemma parse_enum_definition_between pre inner post :
  ~ occurs "(" pre -> ~ occurs ")" post ->
  parse_enum_definition (pre ++ "(" ++ inner ++ ")" ++ post)
  = rmap strip_quotes (tokenize_string_list inner "'").
Proof.
  intros Hpre Hpost. unfold parse_enum_definition.
  change (pre ++ "(" ++ inner ++ ")" ++ post)
    with (pre ++ String "(" (inner ++ String ")" post)).
  rewrite find_first by assumption.
  replace (pre ++ String "(" (inner ++ String ")" post))
    with ((pre ++ "(" ++ inner) ++ String ")" post)
    by (now rewrite !app_assoc_str).
  rewrite rfind_last by assumption.
  rewrite !size_app.
  pose proof (size_nonneg pre). pose proof (size_nonneg inner).
  change (StdString.size "(") with 1.
  destruct (Z.gtb_spec (StdString.size pre + (1 + StdString.size inner))
                       (StdString.size pre)); [|lia].
  replace ((pre ++ "(" ++ inner) ++ String ")" post)
    with ((pre ++ "(") ++ inner ++ String ")" post)
    by (now rewrite !app_assoc_str).
  replace (StdString.size pre + 1) with (StdString.size (pre ++ "("))
    by (rewrite size_app; reflexivity).
  replace (StdString.size pre + (1 + StdString.size inner)
           - StdString.size pre - 1)
    with (StdString.size inner) by lia.
  now rewrite substr_middle.
Qed.

(** *** Characters *)

Lemma g_ascii_toupper_spec c :
  g_ascii_isalpha c = true ->
  is_upper (g_ascii_toupper c) = true
  /\ (is_lower c = true ->
      (N_of_ascii (g_ascii_toupper c) + 32 = N_of_ascii c)%N)
  /\ (is_lower c = false -> g_ascii_toupper c = c).
Proof.
  destruct c as [[] [] [] [] [] [] [] []]; vm_compute; intros H;
    try discriminate H; repeat split; intros; try reflexivity;
    discriminate.
Qed.

Lemma format_label_substr (lbl : string) :
  StdString.substr_from (lbl ++ ":") 1
  = Some (match lbl with
          | EmptyString => ""
          | String _ rest => rest ++ ":"
          end).
Proof.
  unfold StdString.substr_from.
  destruct lbl as [|c rest].
  - reflexivity.
  - cbn [append]. unfold StdString.size. cbn [String.length].
    pose proof (size_nonneg (rest ++ ":")) as Hs. unfold StdString.size in Hs.
    destruct (Z.leb_spec 1 (Z.of_nat (S (String.length (rest ++ ":")))));
      [|lia].
    f_equal. change (Z.to_nat 1) with 1%nat. cbn [substring].
    replace (Z.to_nat (Z.of_nat (S (String.length (rest ++ ":"))) - 1))
      with (String.length (rest ++ ":")) by lia.
    destruct (rest ++ ":") as [|x y] eqn:E; [reflexivity|].
    rewrite <- E. apply substring_all.
Qed.

(** ** The claims about the helpers *)

(** C9.  [format_label] appends a colon to the column name; a leading
    ASCII letter is replaced by its capital (a lower-case letter moves down
    by 32 in the table, a capital stays) and the rest of the name is kept;
    a leading character that is not a letter stays as it is; so
    [format_label "name"] is ["Name:"], and the empty name gives [":"]. *)
Theorem format_label_spec :
  format_label "name" = "Name:"
  /\ format_label "" = ":"
  /\ (forall c rest,
         g_ascii_isalpha c = true ->
         format_label (String c rest) = String (g_ascii_toupper c) (rest ++ ":")
         /\ is_upper (g_ascii_toupper c) = true
         /\ (is_lower c = true ->
             (N_of_ascii (g_ascii_toupper c) + 32 = N_of_ascii c)%N)
         /\ (is_lower c = false -> g_ascii_toupper c = c))
  /\ (forall c rest,
         g_ascii_isalpha c = false ->
         format_label (String c rest) = String c rest ++ ":").
Proof.
  split; [reflexivity|]. split; [reflexivity|]. split.
  - intros c rest Hc. split; [|now apply g_ascii_toupper_spec].
    unfold format_label. rewrite format_label_substr.
    cbn [append StdString.front]. now rewrite Hc.
  - intros c rest Hc. unfold format_label.
    cbn [append StdString.front]. now rewrite Hc.
Qed.

(** C2.  [parse_enum_definition] takes what stands between the first
    opening and the last closing parenthesis of the full type, splits it
    into its quote-delimited tokens and strips the two quotes of each
    token; a list of quoted values separated by commas gives back the
    values, commas inside a value included, so ["enum('a,b','c')"] gives
    ["a,b"] and ["c"]; without an opening parenthesis, without a closing
    one, or with the last closing one before the first opening one, the
    result is the empty list. *)
Theorem parse_enum_definition_spec :
  (forall pre inner post,
      ~ occurs "(" pre -> ~ occurs ")" post ->
      exists bodies,
        tokenize_string_list inner "'" = map (quoted "'") bodies
        /\ parse_enum_definition (pre ++ "(" ++ inner ++ ")" ++ post)
           = Ok bodies)
  /\ (forall pre values post,
         ~ occurs "(" pre -> ~ occurs ")" post ->
         Forall (fun v => ~ occurs "'" v) values ->
         parse_enum_definition
           (pre ++ "(" ++ String.concat "," (map (quoted "'") values)
                ++ ")" ++ post)
         = Ok values)
  /\ parse_enum_definition "enum('a,b','c')" = Ok ["a,b"; "c"]
  /\ (forall full_type,
         ~ occurs "(" full_type
         \/ ~ occurs ")" full_type
         \/ (exists b e,
                StdString.find full_type "(" = Some b
                /\ StdString.rfind full_type ")" = Some e
                /\ e <= b) ->
         parse_enum_definition full_type = Ok []).
Proof.
  split; [|split; [|split]].
  - intros pre inner post Hpre Hpost.
    destruct (tokenize_string_list_quoted inner "'") as [bodies E].
    exists bodies. split; [exact E|].
    rewrite parse_enum_definition_between by assumption.
    rewrite E. apply rmap_strip_quotes.
  - intros pre values post Hpre Hpost Hv.
    rewrite parse_enum_definition_between by assumption.
    rewrite tokenize_quoted_list by (assumption || discriminate).
    apply rmap_strip_quotes.
  - reflexivity.
  - intros full_type H. unfold parse_enum_definition.
    destruct H as [H|[H|(b & e & Hb & He & Hle)]].
    + apply find_None in H. now rewrite H.
    + apply rfind_None in H. rewrite H.
      now destruct (StdString.find full_type "(").
    + rewrite Hb, He. destruct (Z.gtb_spec e b); [lia | reflexivity].
Qed.

(** ** Field-type dispatch *)

Lemma empty_true s : StdString.empty s = true <-> s = "".
Proof. destruct s; simpl; split; intros; congruence. Qed.

Lemma empty_false s : StdString.empty s = false <-> s <> "".
Proof. destruct s; simpl; split; intros; congruence. Qed.

(** Decide the next comparison of the type name in [create]. *)
Ltac type_test :=
  match goal with
  | |- context [String.eqb ?a ?b] =>
      let E := fresh "E" in
      destruct (String.eqb_spec a b) as [E|E];
      try congruence; try (rewrite E in *; discriminate)
  end.

Lemma new_StringFieldView_shape name max_length editable cb :
  new_StringFieldView name max_length editable cb
  = StringFieldView name cb
      {| entry_enabled := editable;
         entry_size := if 64 <? max_length then None
                       else Some (Z.max (CInt.mul max_length 10) 60, -1);
         entry_text := "" |}
      (64 <? max_length).
Proof.
  unfold new_StringFieldView. rewrite Z.gtb_ltb.
  now destruct (64 <? max_length).
Qed.

Lemma create_total f full_type editable cb vcb :
  exists v, create f full_type editable cb vcb = Ok v.
Proof.
  unfold create.
  destruct (parse_enum_definition_total full_type) as [items ->].
  cbn [rbind].
  repeat match goal with
         | |- context [if ?b then _ else _] => destruct b
         end; eauto.
Qed.

(** C1 (amended).  [create] returns one field view for every column,
    chosen by the first rule that applies: a VARCHAR column with a display
    size above 40 gets a multi-line text box, whose height is raised from
    60 to 200 when the display size is above 1000 (its width is left to
    the layout in both cases); any other VARCHAR column gets a single-line
    entry whose width is ten times the display size and at least 60; TEXT
    gets a multi-line text box; BLOB gets the placeholder with its view
    button; ENUM and SET with a non-empty full type get a selector, and a
    checklist of unchecked rows, filled with the parsed values; everything
    else gets a single-line entry. *)
Theorem create_dispatch (f : FieldInfo) (full_type : string)
        (editable : bool) (cb : ChangeCallback) (vcb : ViewCallback) :
  let name := format_label (field f) in
  let ds := display_size f in
  let made := create f full_type editable cb vcb in
  (type f = "VARCHAR" -> 40 < ds ->
   made = Ok (TextFieldView name cb
                {| tbox_enabled := editable;
                   tbox_size := Some (-1, if 1000 <? ds then 200 else 60);
                   tbox_text := "" |}))
  /\ (type f = "VARCHAR" -> ds <= 40 ->
      made = Ok (StringFieldView name cb
                   {| entry_enabled := editable;
                      entry_size := Some (Z.max (CInt.mul ds 10) 60, -1);
                      entry_text := "" |}
                   false)
      /\ (CInt.INT_MIN <= 10 * ds -> CInt.mul ds 10 = 10 * ds))
  /\ (type f = "TEXT" ->
      made = Ok (TextFieldView name cb
                   {| tbox_enabled := editable;
                      tbox_size := Some (-1, 60);
                      tbox_text := "" |}))
  /\ (type f = "BLOB" ->
      made = Ok (BlobFieldView name cb "BLOB"
                   {| button_text := "View...";
                      button_internal_padding := false;
                      button_clicked := vcb |}))
  /\ (type f = "ENUM" -> full_type <> "" ->
      exists items,
        parse_enum_definition full_type = Ok items
        /\ made = Ok (SelectorFieldView name cb
                        {| selector_items := items;
                           selector_enabled := editable;
                           selector_value := "" |}))
  /\ (type f = "SET" -> full_type <> "" ->
      exists items,
        parse_enum_definition full_type = Ok items
        /\ made = Ok (SetFieldView name cb
                        {| tree_nodes :=
                             map (fun i => {| node_bool0 := false;
                                              node_string1 := i |}) items;
                           tree_size :=
                             Some (250,
                                   Z.min 100
                                     (CInt.wrap_int
                                        (Z.of_nat (List.length items) * 20)));
                           tree_enabled := editable |}))
  /\ (type f <> "VARCHAR" -> type f <> "TEXT" -> type f <> "BLOB" ->
      (type f <> "ENUM" /\ type f <> "SET") \/ full_type = "" ->
      made = Ok (StringFieldView name cb
                   {| entry_enabled := editable;
                      entry_size :=
                        if 64 <? ds then None
                        else Some (Z.max (CInt.mul ds 10) 60, -1);
                      entry_text := "" |}
                   (64 <? ds))).
Proof.
  intros name ds made. subst name ds made. unfold create.
  refine (conj _ (conj _ (conj _ (conj _ (conj _ (conj _ _)))))).
  - intros Ht Hds. rewrite Ht. cbn [String.eqb Ascii.eqb Bool.eqb].
    destruct (Z.gtb_spec (display_size f) 40); [|lia].
    rewrite Z.gtb_ltb. now destruct (1000 <? display_size f).
  - intros Ht Hds. split.
    + rewrite Ht. cbn [String.eqb Ascii.eqb Bool.eqb].
      destruct (Z.gtb_spec (display_size f) 40); [lia|].
      rewrite new_StringFieldView_shape.
      destruct (Z.ltb_spec 64 (display_size f)); [lia | reflexivity].
    + intros Hlo. unfold CInt.mul. rewrite wrap_int_id; [lia|].
      unfold CInt.in_int, CInt.INT_MAX, CInt.INT_MIN in *. lia.
  - intros Ht. rewrite Ht. reflexivity.
  - intros Ht. rewrite Ht. reflexivity.
  - intros Ht Hft. rewrite Ht. cbn [String.eqb Ascii.eqb Bool.eqb andb].
    apply empty_false in Hft. rewrite Hft. cbn [negb].
    destruct (parse_enum_definition_total full_type) as [items E].
    exists items. split; [exact E|]. rewrite E. reflexivity.
  - intros Ht Hft. rewrite Ht. cbn [String.eqb Ascii.eqb Bool.eqb andb].
    apply empty_false in Hft. rewrite Hft. cbn [negb].
    destruct (parse_enum_definition_total full_type) as [items E].
    exists items. split; [exact E|]. rewrite E. cbn [rbind].
    unfold new_SetFieldView.
    set (h := CInt.wrap_int (Z.of_nat (Datatypes.length items) * 20)).
    replace (if h >? 100 then 100 else h) with (Z.min 100 h); [reflexivity|].
    rewrite Z.gtb_ltb. destruct (Z.ltb_spec 100 h); lia.
  - intros Hv Ht Hb He.
    rewrite <- new_StringFieldView_shape.
    repeat type_test; cbn [andb]; try reflexivity;
      destruct He as [[He1 He2]| ->]; try congruence; reflexivity.
Qed.

(** The dispatch at the columns the specification lists. *)
Example create_varchar_200 :
  create (sample_column "VARCHAR" 200) "" true
         (bind_update_value 0) (bind_open_field_editor 0)
  = Ok (TextFieldView "C:" (bind_update_value 0)
          {| tbox_enabled := true; tbox_size := Some (-1, 60);
             tbox_text := "" |}).
Proof. reflexivity. Qed.

Example create_varchar_10 :
  create (sample_column "VARCHAR" 10) "" true
         (bind_update_value 0) (bind_open_field_editor 0)
  = Ok (StringFieldView "C:" (bind_update_value 0)
          {| entry_enabled := true; entry_size := Some (100, -1);
             entry_text := "" |} false).
Proof. reflexivity. Qed.

Example create_enum_abc :
  create (sample_column "ENUM" 1) "enum('a','b','c')" true
         (bind_update_value 0) (bind_open_field_editor 0)
  = Ok (SelectorFieldView "C:" (bind_update_value 0)
          {| selector_items := ["a"; "b"; "c"]; selector_enabled := true;
             selector_value := "" |}).
Proof. reflexivity. Qed.

Example create_set_xy :
  create (sample_column "SET" 3) "set('x','y')" true
         (bind_update_value 0) (bind_open_field_editor 0)
  = Ok (SetFieldView "C:" (bind_update_value 0)
          {| tree_nodes := [ {| node_bool0 := false; node_string1 := "x" |};
                             {| node_bool0 := false; node_string1 := "y" |} ];
             tree_size := Some (250, 40); tree_enabled := true |}).
Proof. reflexivity. Qed.

Lemma create_dispatch_witness :
  exists items,
    parse_enum_definition "enum('a','b','c')" = Ok items
    /\ create (sample_column "ENUM" 1) "enum('a','b','c')" true
              (bind_update_value 0) (bind_open_field_editor 0)
       = Ok (SelectorFieldView (format_label "c") (bind_update_value 0)
               {| selector_items := items; selector_enabled := true;
                  selector_value := "" |}).
Proof.
  refine (proj1 (proj2 (proj2 (proj2 (proj2
            (create_dispatch (sample_column "ENUM" 1) "enum('a','b','c')"
               true (bind_update_value 0) (bind_open_field_editor 0))))))
            _ _).
  - reflexivity.
  - discriminate.
Defined.

(** Against C1 as first written ("further widened"): the text box made
    for a VARCHAR column of display size 1001 has the width of the one
    made for display size 41; it is its height that grows. *)
Lemma create_varchar_1001_same_width :
  exists wide narrow width,
    create (sample_column "VARCHAR" 1001) "" true
           (bind_update_value 0) (bind_open_field_editor 0) = Ok wide
    /\ create (sample_column "VARCHAR" 41) "" true
              (bind_update_value 0) (bind_open_field_editor 0) = Ok narrow
    /\ value_width wide = Some width
    /\ value_width narrow = Some width
    /\ value_height narrow = Some 60
    /\ value_height wide = Some 200.
Proof.
  eexists _, _, _. repeat split; reflexivity.
Qed.

(** ** Which field views expand *)

(** C8 (amended).  For the field view [create] makes of a column,
    [expands()] is true for the multi-line text box, false for the
    selector, the checklist and the BLOB placeholder, and for a
    single-line entry it is true exactly when the display size is above
    64; a VARCHAR column never gets such an entry, since above 40 it is
    already given a text box: an expanding single-line entry is always
    the fallback of some other type. *)
Theorem expands_create (f : FieldInfo) (full_type : string)
        (editable : bool) (cb : ChangeCallback) (vcb : ViewCallback)
        (v : FieldView) :
  create f full_type editable cb vcb = Ok v ->
  expands v
  = is_TextFieldView v || (is_StringFieldView v && (64 <? display_size f))
  /\ (type f = "VARCHAR" -> is_StringFieldView v = true -> expands v = false)
  /\ (expands v = true -> is_TextFieldView v = false ->
      type f <> "VARCHAR" /\ is_StringFieldView v = true
      /\ 64 < display_size f).
Proof.
  unfold create.
  destruct (parse_enum_definition_total full_type) as [items ->].
  cbn [rbind]. rewrite !new_StringFieldView_shape.
  repeat match goal with
         | |- context [if String.eqb ?a ?b then _ else _] =>
             destruct (String.eqb_spec a b)
         | |- context [if ?b then _ else _] => destruct b eqn:?
         end;
    intros [= <-]; cbn; repeat split; intros; try congruence; try lia.
Qed.

Lemma expands_create_witness :
  create (sample_column "TEXT" 0) "" true
         (bind_update_value 0) (bind_open_field_editor 0)
  = Ok (new_TextFieldView "C:" true (bind_update_value 0))
  /\ expands (new_TextFieldView "C:" true (bind_update_value 0)) = true.
Proof.
  split; [reflexivity|].
  exact (proj1 (expands_create (sample_column "TEXT" 0) ""
                  true (bind_update_value 0) (bind_open_field_editor 0)
                  _ eq_refl)).
Defined.

(** Against C8 as first written: a CHAR column of display size 100 is not
    a VARCHAR column and gets no text box, and its field view expands;
    and the single-line entry of a VARCHAR column (display size 40, the
    largest that gets one) does not. *)
Lemma expands_char_100 :
  exists v u,
    create (sample_column "CHAR" 100) "" true
           (bind_update_value 0) (bind_open_field_editor 0) = Ok v
    /\ type (sample_column "CHAR" 100) <> "VARCHAR"
    /\ is_TextFieldView v = false
    /\ expands v = true
    /\ create (sample_column "VARCHAR" 40) "" true
              (bind_update_value 0) (bind_open_field_editor 0) = Ok u
    /\ is_StringFieldView u = true
    /\ expands u = false.
Proof.
  eexists _, _. repeat split; try reflexivity. discriminate.
Qed.

(** ** The checklist of a SET column *)

Lemma changed_loop_acc nodes : forall value,
  value <> "" ->
  changed_loop nodes value
  = value ++ String.concat ""
               (map (fun n => "," ++ node_string1 n)
                    (filter node_bool0 nodes)).
Proof.
  induction nodes as [|n nodes IH]; intros value Hv; cbn [changed_loop filter].
  - cbn. now rewrite app_empty_r.
  - destruct (node_bool0 n).
    + apply empty_false in Hv. rewrite Hv.
      rewrite IH by (destruct value; [discriminate | discriminate]).
      cbn [map]. rewrite !app_assoc_str.
      f_equal. f_equal.
      destruct (map _ (filter node_bool0 nodes)) eqn:E.
      * cbn. now rewrite app_empty_r.
      * cbn [String.concat]. reflexivity.
    + now apply IH.
Qed.

Lemma concat_cons sep l ls :
  String.concat sep (l :: ls)
  = l ++ String.concat "" (map (fun x => sep ++ x) ls).
Proof.
  revert l. induction ls as [|l' ls IH]; intros l.
  - cbn. now rewrite app_empty_r.
  - change (String.concat sep (l :: l' :: ls))
      with (l ++ sep ++ String.concat sep (l' :: ls)).
    rewrite IH. cbn [map]. f_equal.
    destruct (map (fun x => sep ++ x) ls) eqn:E.
    + cbn. now rewrite !app_empty_r.
    + cbn [String.concat]. now rewrite app_assoc_str.
Qed.

(** The value the change handler computes: the labels of the checked
    rows, in row order, with a comma between two of them, as long as no
    checked label is empty (after an empty first part no comma is
    written). *)
Lemma changed_loop_concat nodes :
  Forall (fun n => node_bool0 n = true -> node_string1 n <> "") nodes ->
  changed_loop nodes ""
  = String.concat "," (map node_string1 (filter node_bool0 nodes)).
Proof.
  induction 1 as [|n nodes Hn Hnodes IH]; [reflexivity|].
  cbn [changed_loop filter]. destruct (node_bool0 n).
  - cbn [StdString.empty map]. cbn [append].
    rewrite changed_loop_acc by auto.
    rewrite concat_cons. now rewrite map_map.
  - exact IH.
Qed.

Lemma split_from_part sep part : forall cur rest,
  ~ occurs sep part ->
  split_from sep cur (part ++ rest) = split_from sep (cur ++ part) rest.
Proof.
  unfold occurs. induction part as [|c part IH]; intros cur rest H.
  - cbn. now rewrite app_empty_r.
  - cbn [append split_from].
    destruct (Ascii.eqb_spec c sep) as [->|Hne];
      [exfalso; apply H; now left|].
    rewrite IH by (intros Hin; apply H; now right).
    now rewrite app_assoc_str.
Qed.

Lemma split_concat sep part parts :
  Forall (fun p => ~ occurs sep p) (part :: parts) ->
  split_token_list (String.concat (String sep "") (part :: parts)) sep
  = part :: parts.
Proof.
  unfold split_token_list. revert part.
  induction parts as [|p parts IH]; intros part H.
  - cbn [String.concat]. rewrite <- (app_empty_r part) at 1.
    rewrite split_from_part by (now inversion H). reflexivity.
  - change (String.concat (String sep "") (part :: p :: parts))
      with (part ++ String sep (String.concat (String sep "") (p :: parts))).
    rewrite split_from_part by (now inversion H).
    cbn [split_from append]. rewrite Ascii.eqb_refl. f_equal.
    apply IH. now inversion H.
Qed.

Lemma mem_string_In s l : mem_string s l = true <-> In s l.
Proof.
  unfold mem_string. rewrite existsb_exists. split.
  - intros (x & Hin & E). apply String.eqb_eq in E. now subst.
  - intros Hin. exists s. split; [assumption | apply String.eqb_refl].
Qed.

Lemma set_value_checked tree value :
  map node_string1
      (filter node_bool0 (tree_nodes (SetFieldView_set_value tree value)))
  = filter (fun l => mem_string l (split_token_list value ","))
           (map node_string1 (tree_nodes tree)).
Proof.
  unfold SetFieldView_set_value. cbn [tree_nodes].
  induction (tree_nodes tree) as [|n nodes IH]; [reflexivity|].
  cbn [map filter node_bool0 node_string1].
  destruct (mem_string (node_string1 n) (split_token_list value ","));
    cbn [map node_string1]; now rewrite IH.
Qed.

(** C6.  On a checklist whose rows carry the labels [x] and [y] (among
    any others, in any order, checked or not), [set_value("x,y", false)]
    followed by the change handler hands the callback the labels of the
    checked rows joined by commas in row order, and the comma-separated
    parts of that string are exactly [x] and [y]. *)
Theorem set_value_changed_roundtrip (lbl : string) (cb : ChangeCallback)
        (tree : TreeNodeView) :
  In "x" (map node_string1 (tree_nodes tree)) ->
  In "y" (map node_string1 (tree_nodes tree)) ->
  exists value,
    changed (set_value (SetFieldView lbl cb tree) "x,y" false)
    = Some (cb, value)
    /\ value
       = String.concat ","
           (map node_string1
              (filter node_bool0
                 (tree_nodes (SetFieldView_set_value tree "x,y"))))
    /\ value
       = String.concat ","
           (filter (fun l => mem_string l ["x"; "y"])
                   (map node_string1 (tree_nodes tree)))
    /\ (forall part,
           In part (split_token_list value ",") <-> part = "x" \/ part = "y").
Proof.
  intros Hx Hy.
  exists (SetFieldView_changed (SetFieldView_set_value tree "x,y")).
  split; [reflexivity|].
  assert (Hchecked :
            SetFieldView_changed (SetFieldView_set_value tree "x,y")
            = String.concat ","
                (map node_string1
                   (filter node_bool0
                      (tree_nodes (SetFieldView_set_value tree "x,y"))))).
  { unfold SetFieldView_changed. apply changed_loop_concat.
    unfold SetFieldView_set_value. cbn [tree_nodes].
    apply Forall_forall. intros n Hn.
    apply in_map_iff in Hn. destruct Hn as (n0 & <- & _).
    cbn [node_bool0 node_string1]. intros Hm.
    apply mem_string_In in Hm. cbn in Hm.
    destruct Hm as [<-|[<-|[]]]; discriminate. }
  split; [exact Hchecked|].
  rewrite Hchecked, set_value_checked.
  change (split_token_list "x,y" ",") with ["x"; "y"].
  split; [reflexivity|].
  set (kept := filter (fun l => mem_string l ["x"; "y"])
                      (map node_string1 (tree_nodes tree))).
  assert (Hkept : forall p, In p kept <-> p = "x" \/ p = "y").
  { intros p. unfold kept. rewrite filter_In, mem_string_In. cbn [In].
    split.
    - intros [_ [<-|[<-|[]]]]; auto.
    - intros [->| ->]; auto. }
  destruct kept as [|k kept'] eqn:Ek.
  { exfalso. apply (proj2 (Hkept "x")). now left. }
  intros part. rewrite split_concat; [apply Hkept|].
  apply Forall_forall. intros p Hp. apply Hkept in Hp.
  unfold occurs. destruct Hp as [->| ->]; cbn; intros [E|[]]; discriminate.
Qed.

Lemma set_value_changed_roundtrip_witness :
  exists value,
    changed (set_value
               (SetFieldView "C:" (bind_update_value 2)
                  {| tree_nodes :=
                       [ {| node_bool0 := true; node_string1 := "z" |};
                         {| node_bool0 := false; node_string1 := "y" |};
                         {| node_bool0 := false; node_string1 := "x" |} ];
                     tree_size := Some (250, 60);
                     tree_enabled := true |})
               "x,y" false)
    = Some (bind_update_value 2, value)
    /\ value = "y,x".
Proof.
  destruct (set_value_changed_roundtrip "C:" (bind_update_value 2)
              {| tree_nodes :=
                   [ {| node_bool0 := true; node_string1 := "z" |};
                     {| node_bool0 := false; node_string1 := "y" |};
                     {| node_bool0 := false; node_string1 := "x" |} ];
                 tree_size := Some (250, 60);
                 tree_enabled := true |})
    as (value & Hc & _ & Hv & _).
  - cbn. auto.
  - cbn. auto.
  - exists value. split; [exact Hc | exact Hv].
Defined.

(** ** The panel and its recordset *)

Lemma lock_rset_run w : lock_rset w = (w, snd (lock_rset w)).
Proof. reflexivity. Qed.

Lemma lock_rset_alive w r :
  snd (lock_rset w) = Ok (Some r) -> w_rset w = Some r.
Proof.
  cbn. destruct (_rset (w_form w)); [discriminate | congruence].
Qed.

Lemma world_eta w :
  {| w_rset := w_rset w; w_form := w_form w; w_log := w_log w |} = w.
Proof. now destruct w. Qed.

(** With the lock's result known, a method is its continuation. *)
Lemma bind_lock_rset A (k : option Recordset -> M A) w o :
  snd (lock_rset w) = Ok o -> (rset <- lock_rset ;; k rset) w = k o w.
Proof.
  intros H. unfold bind at 1. rewrite lock_rset_run, H. reflexivity.
Qed.

Lemma navigate_negative_row w r item :
  snd (lock_rset w) = Ok (Some r) ->
  Rs.edited_field_row r < 0 ->
  navigate item w = (w, Ok tt).
Proof.
  intros Hlock Hrow. unfold navigate.
  rewrite (bind_lock_rset _ _ _ _ Hlock).
  destruct (Z.ltb_spec (Rs.edited_field_row r) 0); [reflexivity | lia].
Qed.

(** C10.  When the recordset is alive and its edited row is negative,
    [navigate] returns at once whatever the item (first, last and delete
    included): recordset, panel and log are as before, so nothing was
    redisplayed. *)
Theorem navigate_without_row (w : World) (r : Recordset)
        (item : ToolBarItem) :
  snd (lock_rset w) = Ok (Some r) ->
  Rs.edited_field_row r < 0 ->
  navigate item w = (w, Ok tt)
  /\ w_rset (fst (navigate item w)) = Some r
  /\ w_form (fst (navigate item w)) = w_form w
  /\ w_log (fst (navigate item w)) = w_log w.
Proof.
  intros Hlock Hrow.
  rewrite (navigate_negative_row w r item Hlock Hrow). cbn [fst].
  repeat split. now apply lock_rset_alive.
Qed.

(** C4.  When the weak reference yields no recordset, [navigate],
    [update_value], [open_field_editor] and [display_record] return
    normally and leave recordset, panel and log as they were. *)
Theorem expired_recordset_noop (w : World) :
  snd (lock_rset w) = Ok None ->
  (forall item, navigate item w = (w, Ok tt))
  /\ (forall column value, update_value column value w = (w, Ok tt))
  /\ (forall column, open_field_editor column w = (w, Ok tt))
  /\ display_record w = (w, Ok 0).
Proof.
  intros Hlock. repeat split; intros;
    [ unfold navigate | unfold update_value | unfold open_field_editor
    | unfold display_record ];
    now rewrite (bind_lock_rset _ _ _ _ Hlock).
Qed.

(** *** What a method leaves alone *)

Section Frame.

Variable R : World -> World -> Prop.
Hypothesis R_refl : forall w, R w w.
Hypothesis R_trans : forall a b c, R a b -> R b c -> R a c.

Lemma preserves_ret A (a : A) : preserves R (ret a).
Proof. intros w. apply R_refl. Qed.

Lemma preserves_throw A e : preserves R (@throw A e).
Proof. intros w. apply R_refl. Qed.

Lemma preserves_lift A (r : result A) : preserves R (lift r).
Proof. intros w. apply R_refl. Qed.

Lemma preserves_get_form : preserves R get_form.
Proof. intros w. apply R_refl. Qed.

Lemma preserves_lock p : preserves R (lock p).
Proof. intros w. apply R_refl. Qed.

Lemma preserves_bind A B (m : M A) (k : A -> M B) :
  preserves R m -> (forall a, preserves R (k a)) -> preserves R (bind m k).
Proof.
  intros Hm Hk w. unfold bind. specialize (Hm w).
  destruct (m w) as [w' [a|e]]; cbn [fst] in *.
  - eapply R_trans; [exact Hm | apply Hk].
  - exact Hm.
Qed.

Lemma preserves_when b (m : M unit) :
  preserves R m -> preserves R (when b m).
Proof. intros Hm. destruct b; [exact Hm | apply preserves_ret]. Qed.

Lemma preserves_for_each A (body : Z -> A -> M unit) l :
  (forall i x, preserves R (body i x)) ->
  forall i, preserves R (for_each body i l).
Proof.
  intros Hbody. induction l as [|x l IH]; intros i; cbn [for_each].
  - apply preserves_ret.
  - apply preserves_bind; [apply Hbody | intros _; apply IH].
Qed.

End Frame.

Lemma panel_only_refl w : panel_only w w.
Proof. now repeat split. Qed.

Lemma panel_only_trans a b c :
  panel_only a b -> panel_only b c -> panel_only a c.
Proof. unfold panel_only. intros (?&?&?) (?&?&?). repeat split; congruence. Qed.

Lemma driver_only_refl w : driver_only w w.
Proof.
  split; [reflexivity|]. exists []. now rewrite app_nil_r.
Qed.

Lemma driver_only_trans a b c :
  driver_only a b -> driver_only b c -> driver_only a c.
Proof.
  intros (Hr1 & e1 & Hl1 & He1) (Hr2 & e2 & Hl2 & He2). split; [congruence|].
  exists (e1 ++ e2)%list. split.
  - now rewrite Hl2, Hl1, app_assoc.
  - apply Forall_app. now split.
Qed.

(** Build a [preserves] fact along the structure of the method. *)
Ltac frame R_refl R_trans :=
  repeat lazymatch goal with
    | |- preserves _ (ret _) => apply (@preserves_ret _ R_refl)
    | |- preserves _ (throw _) => apply (@preserves_throw _ R_refl)
    | |- preserves _ (lift _) => apply (@preserves_lift _ R_refl)
    | |- preserves _ get_form => apply (@preserves_get_form _ R_refl)
    | |- preserves _ (lock _) => apply (@preserves_lock _ R_refl)
    | |- preserves _ (when _ _) => apply (@preserves_when _ R_refl)
    | |- preserves _ (bind _ _) =>
        apply (@preserves_bind _ R_trans); [|intros ?]
    | |- preserves _ (match ?x with _ => _ end) => destruct x
    end.

Lemma panel_only_with_form f :
  (forall x, _rset (f x) = _rset x) -> preserves panel_only (with_form f).
Proof. intros Hf w. unfold panel_only. cbn. now rewrite Hf. Qed.

Lemma panel_only_tbar_set_enabled name b :
  preserves panel_only (tbar_set_enabled name b).
Proof.
  unfold tbar_set_enabled. frame panel_only_refl panel_only_trans.
  now apply panel_only_with_form.
Qed.

Lemma panel_only_display_record : preserves panel_only display_record.
Proof.
  unfold display_record, lock_rset, label_item_set_text.
  frame panel_only_refl panel_only_trans;
    try apply panel_only_tbar_set_enabled;
    now apply panel_only_with_form.
Qed.

Lemma panel_only_lock w w' :
  panel_only w w' -> snd (lock_rset w') = snd (lock_rset w).
Proof. intros (Hr & _ & Hp). cbn. now rewrite Hp, Hr. Qed.

(** *** Redisplaying twice *)

Lemma display_record_steps w r :
  snd (lock_rset w) = Ok (Some r) ->
  display_record w = run_then (display_steps r) (ret 0) w.
Proof.
  intros H. unfold display_record. now rewrite (bind_lock_rset _ _ _ _ H).
Qed.

Section Steps.

Variable steps : list (M unit).
Hypothesis throw_keeps :
  forall s, In s steps -> forall w e, snd (s w) = Throw e -> fst (s w) = w.
Hypothesis step_fixes :
  forall s, In s steps -> forall w, snd (s w) = Ok tt -> fixes s (fst (s w)).
Hypothesis fixes_kept :
  forall s s', In s steps -> In s' steps ->
  forall w, fixes s w -> fixes s (fst (s' w)).

Lemma run_then_again A (a : A) : forall todo done,
  incl todo steps -> incl done steps ->
  forall w,
    Forall (fun s => fixes s w) done ->
    Forall (fun s => fixes s (fst (run_then todo (ret a) w))) done
    /\ run_then todo (ret a) (fst (run_then todo (ret a) w))
       = (fst (run_then todo (ret a) w), snd (run_then todo (ret a) w)).
Proof.
  induction todo as [|s todo IH]; intros done Htodo Hdone w Hw.
  - cbn. now split.
  - assert (Hs : In s steps) by (apply Htodo; now left).
    assert (Htodo' : incl todo steps)
      by (intros x Hx; apply Htodo; now right).
    cbn [run_then]. set (X := run_then todo (ret a)) in *.
    destruct (s w) as [w1 [[]|e]] eqn:Es.
    + assert (Hrun1 : (s ;; X) w = X w1) by (unfold bind; now rewrite Es).
      rewrite Hrun1.
      assert (Hfix : fixes s w1).
      { replace w1 with (fst (s w)) by now rewrite Es.
        apply step_fixes; [assumption | now rewrite Es]. }
      assert (Hdone1 : Forall (fun x => fixes x w1) (s :: done)).
      { constructor; [assumption|].
        rewrite Forall_forall in *. intros x Hx.
        replace w1 with (fst (s w)) by now rewrite Es.
        apply fixes_kept; auto. }
      destruct (IH (s :: done) Htodo'
                   ltac:(intros x [<-|Hx]; auto) w1 Hdone1) as [Hall Hrun].
      fold X in Hall, Hrun.
      split; [now inversion Hall|].
      inversion Hall as [|? ? Hsfix _]; subst.
      unfold bind. rewrite Hsfix. exact Hrun.
    + assert (Hrun1 : (s ;; X) w = (w1, Throw e))
        by (unfold bind; now rewrite Es).
      assert (w1 = w) as ->.
      { replace w1 with (fst (s w)) by now rewrite Es.
        eapply throw_keeps; [eassumption | now rewrite Es]. }
      rewrite Hrun1. cbn [fst snd]. split; [assumption|]. exact Hrun1.
Qed.

End Steps.

Lemma set_value_idem v value is_null :
  set_value (set_value v value is_null) value is_null = set_value v value is_null.
Proof.
  destruct v; cbn; try reflexivity.
  f_equal. unfold SetFieldView_set_value. cbn [tree_nodes tree_size tree_enabled].
  f_equal. rewrite map_map. reflexivity.
Qed.

Lemma display_fields_idem r fields : forall c,
  display_fields r c (display_fields r c fields) = display_fields r c fields.
Proof.
  induction fields as [|v fields IH]; intros c; cbn [display_fields]; [reflexivity|].
  now rewrite set_value_idem, IH.
Qed.

Lemma find_item_update_nth g tbar name : 
  (forall x, item_name (g x) = item_name x) ->
  forall i, find_item (Rs.update_nth i g tbar) name = find_item tbar name.
Proof.
  intros Hg. induction tbar as [|x tbar IH]; intros [|i]; cbn [Rs.update_nth find_item]; try reflexivity.
  - now rewrite Hg.
  - now rewrite IH.
Qed.

Lemma find_item_distinct tbar n n' : forall i j,
  find_item tbar n = Some i -> find_item tbar n' = Some j -> n <> n' -> i <> j.
Proof.
  induction tbar as [|x tbar IH]; intros i j; cbn [find_item]; [discriminate|].
  destruct (String.eqb_spec (item_name x) n), (String.eqb_spec (item_name x) n').
  - congruence.
  - intros [= <-]. destruct (find_item tbar n'); cbn; [intros [= <-]|]; discriminate.
  - destruct (find_item tbar n); cbn; [intros [= <-] [= <-]|]; discriminate.
  - destruct (find_item tbar n) as [i'|], (find_item tbar n') as [j'|]; cbn; try discriminate.
    intros [= <-] [= <-] Hn E. injection E as E. now apply (IH i' j' eq_refl eq_refl Hn).
Qed.

Lemma update_nth_comm_fun A (h h' : A -> A) l :
  (forall x, h (h' x) = h' (h x)) ->
  forall i j, Rs.update_nth i h (Rs.update_nth j h' l)
              = Rs.update_nth j h' (Rs.update_nth i h l).
Proof.
  intros H. induction l as [|x l IH]; intros [|i] [|j]; cbn [Rs.update_nth]; try reflexivity.
  - now rewrite H.
  - now rewrite IH.
Qed.

Lemma update_nth_comm_neq A (h h' : A -> A) l : forall i j,
  i <> j ->
  Rs.update_nth i h (Rs.update_nth j h' l)
  = Rs.update_nth j h' (Rs.update_nth i h l).
Proof.
  induction l as [|x l IH]; intros [|i] [|j] Hij; cbn [Rs.update_nth]; try reflexivity.
  - congruence.
  - rewrite IH; [reflexivity | congruence].
Qed.

Lemma update_nth_idem A (h : A -> A) l :
  (forall x, h (h x) = h x) ->
  forall i, Rs.update_nth i h (Rs.update_nth i h l) = Rs.update_nth i h l.
Proof.
  intros H. induction l as [|x l IH]; intros [|i]; cbn [Rs.update_nth];
    try reflexivity.
  - now rewrite H.
  - now rewrite IH.
Qed.

Lemma display_shape_again r g f f' :
  display_shape r g -> g f = Some f' -> g f' = Some f'.
Proof.
  intros [->|[->|[name ->]]].
  - unfold show_fields. intros [= <-]. cbn. now rewrite display_fields_idem.
  - unfold show_position. intros [= <-]. cbn.
    now rewrite update_nth_idem by reflexivity.
  - unfold enable.
    destruct (find_item (_tbar f) name) as [i|] eqn:E; [|discriminate].
    intros [= <-]. cbn. rewrite find_item_update_nth by reflexivity.
    rewrite E. now rewrite update_nth_idem by reflexivity.
Qed.

Lemma display_shape_kept r g g' f f' :
  display_shape r g -> display_shape r g' ->
  g f = Some f -> g' f = Some f' -> g f' = Some f'.
Proof.
  intros Hg Hg' Hf Hf'.
  destruct Hg as [->|[->|[n ->]]], Hg' as [->|[->|[n' ->]]];
    try (rewrite Hf in Hf'; injection Hf' as <-; exact Hf).
  all: unfold show_fields, show_position, enable in *.
  - (* fields kept by position *)
    injection Hf' as <-. injection Hf as Hf. cbn. f_equal.
    destruct f; cbn in *. injection Hf as Hf. now rewrite Hf.
  - (* fields kept by enable *)
    destruct (find_item (_tbar f) n'); [|discriminate].
    injection Hf' as <-. injection Hf as Hf. cbn. f_equal.
    destruct f; cbn in *. injection Hf as Hf. now rewrite Hf.
  - (* position kept by fields *)
    injection Hf' as <-. injection Hf as Hf. cbn. f_equal.
    destruct f; cbn in *. injection Hf as Hf. now rewrite Hf.
  - (* position kept by enable *)
    destruct (find_item (_tbar f) n'); [|discriminate].
    injection Hf' as <-. injection Hf as Hf. cbn. f_equal.
    destruct f; cbn in *. injection Hf as Hf.
    rewrite update_nth_comm_fun by reflexivity. now rewrite Hf.
  - (* enable kept by fields *)
    injection Hf' as <-. cbn.
    destruct (find_item (_tbar f) n); [|discriminate].
    injection Hf as Hf. f_equal.
    destruct f; cbn in *. injection Hf as Hf. now rewrite Hf.
  - (* enable kept by position *)
    injection Hf' as <-. cbn. rewrite find_item_update_nth by reflexivity.
    destruct (find_item (_tbar f) n); [|discriminate].
    injection Hf as Hf. f_equal.
    destruct f; cbn in *. injection Hf as Hf.
    rewrite update_nth_comm_fun by reflexivity. now rewrite Hf.
  - (* enable kept by enable *)
    destruct (String.eqb_spec n n') as [->|Hn].
    { rewrite Hf in Hf'. injection Hf' as <-. exact Hf. }
    destruct (find_item (_tbar f) n') as [j|] eqn:Ej; [|discriminate].
    injection Hf' as <-. cbn. rewrite find_item_update_nth by reflexivity.
    destruct (find_item (_tbar f) n) as [i|] eqn:Ei; [|discriminate].
    injection Hf as Hf. f_equal.
    pose proof (find_item_distinct _ _ _ _ _ Ei Ej Hn) as Hij.
    destruct f; cbn in *. injection Hf as Hf.
    rewrite update_nth_comm_neq by assumption. now rewrite Hf.
Qed.

Lemma display_step_form r s :
  In s (display_steps r) ->
  exists g, display_shape r g /\ forall w, s w = form_step g w.
Proof.
  cbn [In display_steps].
  intros [<-|[<-|[<-|[<-|[<-|[<-|[]]]]]]].
  - exists (show_fields r). split; [now left | reflexivity].
  - exists (show_position r). split; [right; now left | reflexivity].
  - exists (enable "first" (enabled_for r "first")).
    split; [right; right; now exists "first"|].
    intros w. unfold tbar_set_enabled, form_step, enable, bind, get_form.
    now destruct (find_item (_tbar (w_form w)) "first").
  - exists (enable "back" (enabled_for r "back")).
    split; [right; right; now exists "back"|].
    intros w. unfold tbar_set_enabled, form_step, enable, bind, get_form.
    now destruct (find_item (_tbar (w_form w)) "back").
  - exists (enable "next" (enabled_for r "next")).
    split; [right; right; now exists "next"|].
    intros w. unfold tbar_set_enabled, form_step, enable, bind, get_form.
    now destruct (find_item (_tbar (w_form w)) "next").
  - exists (enable "last" (enabled_for r "last")).
    split; [right; right; now exists "last"|].
    intros w. unfold tbar_set_enabled, form_step, enable, bind, get_form.
    now destruct (find_item (_tbar (w_form w)) "last").
Qed.

Lemma fixes_form_step g w :
  fixes (form_step g) w <-> g (w_form w) = Some (w_form w).
Proof.
  unfold fixes, form_step. split.
  - destruct (g (w_form w)) as [f'|]; [|discriminate].
    intros [= E]. apply (f_equal w_form) in E. cbn in E. now f_equal.
  - intros ->. now rewrite world_eta.
Qed.

Lemma fixes_ext s s' w :
  (forall w, s w = s' w) -> fixes s w <-> fixes s' w.
Proof. intros H. unfold fixes. now rewrite H. Qed.

Lemma display_steps_throw r s :
  In s (display_steps r) ->
  forall w e, snd (s w) = Throw e -> fst (s w) = w.
Proof.
  intros Hs w e. destruct (display_step_form r s Hs) as (g & _ & ->).
  unfold form_step. now destruct (g (w_form w)).
Qed.

Lemma display_steps_fixes r s :
  In s (display_steps r) ->
  forall w, snd (s w) = Ok tt -> fixes s (fst (s w)).
Proof.
  intros Hs w. destruct (display_step_form r s Hs) as (g & Hg & E).
  rewrite (fixes_ext _ _ _ E), E. intros Hok.
  apply fixes_form_step. revert Hok. unfold form_step.
  destruct (g (w_form w)) as [f'|] eqn:Eg; [|discriminate].
  intros _. cbn. now apply (display_shape_again r g (w_form w)).
Qed.

Lemma display_steps_kept r s s' :
  In s (display_steps r) -> In s' (display_steps r) ->
  forall w, fixes s w -> fixes s (fst (s' w)).
Proof.
  intros Hs Hs' w.
  destruct (display_step_form r s Hs) as (g & Hg & E).
  destruct (display_step_form r s' Hs') as (g' & Hg' & E').
  rewrite !(fixes_ext _ _ _ E), E', !fixes_form_step.
  intros Hfix. unfold form_step.
  destruct (g' (w_form w)) as [f'|] eqn:Eg'; [|exact Hfix].
  cbn. now apply (display_shape_kept r g g' (w_form w)).
Qed.

Lemma display_steps_logged r s evs :
  In s (display_steps r) ->
  forall w, s (logged w evs) = (logged (fst (s w)) evs, snd (s w)).
Proof.
  intros Hs w. destruct (display_step_form r s Hs) as (g & _ & E).
  rewrite !E. unfold form_step, logged. cbn [w_form].
  now destruct (g (w_form w)).
Qed.

Lemma run_then_logged A (a : A) evs steps :
  (forall s, In s steps ->
   forall w, s (logged w evs) = (logged (fst (s w)) evs, snd (s w))) ->
  forall w,
    run_then steps (ret a) (logged w evs)
    = (logged (fst (run_then steps (ret a) w)) evs,
       snd (run_then steps (ret a) w)).
Proof.
  induction steps as [|s steps IH]; intros Hsteps w; [reflexivity|].
  cbn [run_then]. unfold bind. rewrite (Hsteps s (or_introl eq_refl)).
  destruct (s w) as [w1 [[]|e]]; cbn [fst snd]; [|reflexivity].
  apply IH. intros x Hx. apply Hsteps. now right.
Qed.

Lemma display_record_again w :
  display_record (fst (display_record w))
  = (fst (display_record w), snd (display_record w)).
Proof.
  pose proof (panel_only_lock _ _ (panel_only_display_record w)) as Hlock.
  destruct (snd (lock_rset w)) as [[r|]|e] eqn:El.
  - rewrite (display_record_steps _ r Hlock), (display_record_steps _ r El).
    apply (run_then_again (display_steps r) (display_steps_throw r)
             (display_steps_fixes r) (display_steps_kept r) _ 0
             (display_steps r) []);
      auto using incl_refl, incl_nil_l.
  - unfold display_record. rewrite (bind_lock_rset _ _ _ _ El). cbn [fst snd ret].
    unfold display_record. now rewrite (bind_lock_rset _ _ _ _ El).
  - discriminate El.
Qed.

Lemma display_record_logged w evs :
  display_record (logged w evs)
  = (logged (fst (display_record w)) evs, snd (display_record w)).
Proof.
  destruct (snd (lock_rset w)) as [[r|]|e] eqn:El.
  - rewrite (display_record_steps (logged w evs) r El),
      (display_record_steps w r El).
    apply run_then_logged. intros s Hs. now apply (display_steps_logged r).
  - unfold display_record.
    rewrite (bind_lock_rset _ _ _ _ El).
    now rewrite (bind_lock_rset _ _ (logged w evs) None El).
  - discriminate El.
Qed.

(** *** Navigation *)

Lemma move_to_run w r row :
  w_rset w = Some r -> move_to r row w = (moved w r row, Ok tt).
Proof.
  intros Hr. unfold move_to, bind, with_rset, when, emit, moved, hook_calls.
  rewrite Hr. cbn [option_map].
  destruct (update_edited_field r); cbn; [reflexivity|].
  now rewrite app_nil_r.
Qed.

Lemma back_row row :
  0 <= row <= CInt.INT_MAX ->
  (if CInt.sub row 1 <? 0 then 0 else CInt.sub row 1) = Z.max (row - 1) 0.
Proof.
  intros H. unfold CInt.sub. rewrite wrap_int_id.
  - destruct (Z.ltb_spec (row - 1) 0); lia.
  - unfold CInt.in_int, CInt.INT_MIN, CInt.INT_MAX in *. lia.
Qed.

Lemma next_row row count :
  0 <= row < CInt.INT_MAX -> 0 <= count <= CInt.INT_MAX ->
  (if CInt.add row 1 >=? count then CInt.sub count 1 else CInt.add row 1)
  = Z.min (row + 1) (count - 1).
Proof.
  intros Hrow Hcount. unfold CInt.add, CInt.sub.
  rewrite !wrap_int_id
    by (unfold CInt.in_int, CInt.INT_MIN, CInt.INT_MAX in *; lia).
  rewrite Z.geb_leb. destruct (Z.leb_spec count (row + 1)); lia.
Qed.

Lemma last_row count :
  0 <= count <= CInt.INT_MAX -> CInt.sub count 1 = count - 1.
Proof.
  intros H. apply wrap_int_id.
  unfold CInt.in_int, CInt.INT_MIN, CInt.INT_MAX in *. lia.
Qed.

Lemma count_nonneg r : 0 <= Rs.count r.
Proof. unfold Rs.count. lia. Qed.

Lemma nav_target_name name row count target :
  nav_target name row count = Some target ->
  name = "first" \/ name = "back" \/ name = "next" \/ name = "last".
Proof.
  unfold nav_target.
  repeat match goal with
         | |- context [String.eqb ?a ?b] => destruct (String.eqb_spec a b)
         end; auto; discriminate.
Qed.

(** The move itself: [navigate] is the redisplay of the moved world. *)
Lemma navigate_run w r item target :
  snd (lock_rset w) = Ok (Some r) ->
  0 <= Rs.edited_field_row r < CInt.INT_MAX ->
  Rs.count r <= CInt.INT_MAX ->
  nav_target (item_name item) (Rs.edited_field_row r) (Rs.count r)
  = Some target ->
  navigate item w = (display_record ;; ret tt) (moved w r target).
Proof.
  intros Hlock Hrow Hcount Ht.
  pose proof (lock_rset_alive _ _ Hlock) as Hr.
  pose proof (count_nonneg r) as Hc.
  unfold navigate. rewrite (bind_lock_rset _ _ _ _ Hlock).
  destruct (Z.ltb_spec (Rs.edited_field_row r) 0); [lia|].
  destruct (nav_target_name _ _ _ _ Ht) as [E|[E|[E|E]]];
    rewrite E in *; cbn in Ht; injection Ht as <-;
    cbn [String.eqb Ascii.eqb Bool.eqb];
    unfold bind at 1.
  - now rewrite move_to_run.
  - rewrite back_row by lia. now rewrite move_to_run.
  - rewrite next_row by lia. now rewrite move_to_run.
  - rewrite last_row by lia. now rewrite move_to_run.
Qed.

Lemma redisplay_panel_only w :
  panel_only w (fst ((display_record ;; ret tt) w)).
Proof.
  apply (@preserves_bind _ panel_only_trans).
  - apply panel_only_display_record.
  - intros _. apply (@preserves_ret _ panel_only_refl).
Qed.

Lemma navigate_rset w r item target :
  snd (lock_rset w) = Ok (Some r) ->
  0 <= Rs.edited_field_row r < CInt.INT_MAX ->
  Rs.count r <= CInt.INT_MAX ->
  nav_target (item_name item) (Rs.edited_field_row r) (Rs.count r)
  = Some target ->
  snd (lock_rset (fst (navigate item w)))
  = Ok (Some (Rs.set_edited_field target (Rs.edited_field_column r) r)).
Proof.
  intros Hlock Hrow Hcount Ht.
  rewrite (navigate_run _ _ _ _ Hlock Hrow Hcount Ht).
  rewrite (panel_only_lock _ _ (redisplay_panel_only _)).
  revert Hlock. cbn. destruct (_rset (w_form w)); [discriminate|].
  reflexivity.
Qed.

Lemma fst_redisplay w :
  fst ((display_record ;; ret tt) w) = fst (display_record w).
Proof. unfold bind. now destruct (display_record w) as [w' [z|e]]. Qed.

(** Doing the same move again only redisplays what is displayed. *)
Lemma navigate_again w r item target :
  snd (lock_rset w) = Ok (Some r) ->
  0 <= Rs.edited_field_row r < CInt.INT_MAX ->
  Rs.count r <= CInt.INT_MAX ->
  nav_target (item_name item) (Rs.edited_field_row r) (Rs.count r)
  = Some target ->
  nav_target (item_name item) target (Rs.count r) = Some target ->
  w_rset (fst (navigate item (fst (navigate item w))))
  = w_rset (fst (navigate item w))
  /\ w_form (fst (navigate item (fst (navigate item w))))
     = w_form (fst (navigate item w)).
Proof.
  intros Hlock Hrow Hcount Ht Ht1.
  pose proof (navigate_rset _ _ _ _ Hlock Hrow Hcount Ht) as Hlock1.
  pose proof (navigate_run _ _ _ _ Hlock Hrow Hcount Ht) as Hrun.
  set (w1 := fst (navigate item w)) in *.
  set (r1 := Rs.set_edited_field target (Rs.edited_field_column r) r) in *.
  destruct (Z.ltb_spec target 0) as [Hneg|Hpos].
  { now rewrite (navigate_negative_row _ _ item Hlock1 Hneg). }
  assert (Htarget : target < CInt.INT_MAX).
  { pose proof (count_nonneg r).
    destruct (nav_target_name _ _ _ _ Ht) as [E|[E|[E|E]]];
      rewrite E in Ht; cbn in Ht; injection Ht as <-;
      unfold CInt.INT_MAX in *; lia. }
  rewrite (navigate_run w1 r1 item target Hlock1 (conj Hpos Htarget)
             Hcount Ht1).
  assert (Hmoved : moved w1 r1 target = logged w1 (hook_calls r1)).
  { unfold moved, logged. now rewrite (lock_rset_alive _ _ Hlock1). }
  rewrite Hmoved, fst_redisplay, display_record_logged. cbn [fst].
  assert (Hw1 : fst (display_record w1) = w1).
  { unfold w1 at 2. rewrite Hrun, fst_redisplay.
    unfold w1. rewrite Hrun, fst_redisplay.
    now rewrite display_record_again. }
  now rewrite Hw1.
Qed.

(** C3.  On a live recordset whose edited row is not negative, the four
    navigation items move the edited row as the table says (first: 0;
    back: max(row-1, 0); next: min(row+1, count-1); last: count-1), keep
    the edited column and the rows, call the hook when there is one, and
    then redisplay.  So back at row 0 and next at the last row leave the
    recordset as it is, and first and last done twice leave the recordset
    and the panel as done once. *)
Theorem navigate_moves (w : World) (r : Recordset) (item : ToolBarItem)
        (target : Z) :
  snd (lock_rset w) = Ok (Some r) ->
  0 <= Rs.edited_field_row r < CInt.INT_MAX ->
  Rs.count r <= CInt.INT_MAX ->
  nav_target (item_name item) (Rs.edited_field_row r) (Rs.count r)
  = Some target ->
  navigate item w = (display_record ;; ret tt) (moved w r target)
  /\ w_rset (fst (navigate item w))
     = Some (Rs.set_edited_field target (Rs.edited_field_column r) r)
  /\ w_log (fst (navigate item w)) = (w_log w ++ hook_calls r)%list
  /\ (item_name item = "back" -> Rs.edited_field_row r = 0 ->
      w_rset (fst (navigate item w)) = Some r)
  /\ (item_name item = "next" ->
      Rs.edited_field_row r = Rs.count r - 1 ->
      w_rset (fst (navigate item w)) = Some r)
  /\ (item_name item = "first" \/ item_name item = "last" ->
      w_rset (fst (navigate item (fst (navigate item w))))
      = w_rset (fst (navigate item w))
      /\ w_form (fst (navigate item (fst (navigate item w))))
         = w_form (fst (navigate item w))).
Proof.
  intros Hlock Hrow Hcount Ht.
  pose proof (navigate_run _ _ _ _ Hlock Hrow Hcount Ht) as Hrun.
  pose proof (redisplay_panel_only (moved w r target)) as (Hrs & Hlog & _).
  pose proof (count_nonneg r) as Hc.
  assert (Hafter : w_rset (fst (navigate item w))
                   = Some (Rs.set_edited_field target
                             (Rs.edited_field_column r) r)).
  { rewrite Hrun, Hrs. reflexivity. }
  split; [exact Hrun|]. split; [exact Hafter|].
  split; [rewrite Hrun, Hlog; reflexivity|].
  split; [|split].
  - intros E Hz. rewrite Hafter. rewrite E in Ht. cbn in Ht.
    injection Ht as <-. rewrite Hz. cbn [Z.max Z.sub Z.add Z.opp Z.compare].
    rewrite <- Hz. now destruct r.
  - intros E Hz. rewrite Hafter. rewrite E in Ht. cbn in Ht.
    injection Ht as <-. rewrite <- Hz.
    rewrite Z.min_r by lia. now destruct r.
  - intros E. apply (navigate_again w r item target); try assumption.
    destruct E as [E|E]; rewrite E in *; cbn in Ht |- *; exact Ht.
Qed.

Lemma navigate_moves_witness :
  w_rset (fst (navigate (action_item "next" "" "") (sample_world 1)))
  = Some (sample_recordset 2).
Proof.
  refine (proj1 (proj2 (navigate_moves (sample_world 1) (sample_recordset 1)
                          (action_item "next" "" "") 2 _ _ _ _))).
  - reflexivity.
  - cbn. unfold CInt.INT_MAX. lia.
  - cbn. unfold CInt.INT_MAX. lia.
  - reflexivity.
Defined.

(** In the sample world without an edited row a redisplay would change
    the panel (the position label, for one); [navigate] leaves it. *)
Lemma navigate_without_row_witness :
  navigate (action_item "delete" "" "") (sample_world (-1))
  = (sample_world (-1), Ok tt)
  /\ w_form (fst (display_record (sample_world (-1))))
     <> w_form (sample_world (-1)).
Proof.
  split.
  - apply (navigate_without_row (sample_world (-1)) (sample_recordset (-1))).
    + reflexivity.
    + cbn. lia.
  - intros H. vm_compute in H. discriminate H.
Defined.

Lemma expired_recordset_noop_witness :
  display_record expired_world = (expired_world, Ok 0)
  /\ navigate (action_item "first" "" "") expired_world
     = (expired_world, Ok tt).
Proof.
  destruct (expired_recordset_noop expired_world eq_refl)
    as (Hnav & _ & _ & Hdisplay).
  split; [exact Hdisplay | apply Hnav].
Defined.

(** ** The full column type *)

Lemma version_below_5_5 v :
  is_supported_mysql_version_at_least v 5 5 = false <-> version_below v 5 5.
Proof.
  unfold is_supported_mysql_version_at_least, version_below.
  rewrite Z.gtb_ltb, Z.geb_leb.
  destruct (Z.ltb_spec 5 (majorNumber v)), (Z.eqb_spec (majorNumber v) 5),
    (Z.leb_spec 5 (minorNumber v)); cbn; split; intros; try lia;
    try discriminate; reflexivity.
Qed.

Lemma create_without_full_type f editable cb vcb :
  type f = "ENUM" \/ type f = "SET" ->
  create f "" editable cb vcb
  = Ok (new_StringFieldView (format_label (field f)) (display_size f)
                            editable cb).
Proof.
  intros [E|E]; unfold create; rewrite E; reflexivity.
Qed.

(** C5.  [get_full_column_type] gives the empty string and touches
    nothing (no query is sent) when the server is below 5.5; when the
    driver throws, before or after the query was sent, the exception is
    logged and the result is again the empty string; and an ENUM or SET
    column with an empty full type gets the single-line entry of the
    fallback, so that adding such a column to the panel ends normally. *)
Theorem get_full_column_type_fallback (editor : SqlEditorForm) (w : World) :
  (forall schema table column,
      version_below (rdbms_version editor) 5 5 ->
      get_full_column_type editor schema table column w = (w, Ok ""))
  /\ (forall schema table column what,
         ~ version_below (rdbms_version editor) 5 5 ->
         aux_connection editor (column_type_query schema table column)
         = connection_throws what ->
         get_full_column_type editor schema table column w
         = (logged w [call_log_exception
                        "Exception getting column information: "
                        (column_type_query schema table column) what],
            Ok ""))
  /\ (forall schema table column what,
         ~ version_below (rdbms_version editor) 5 5 ->
         aux_connection editor (column_type_query schema table column)
         = query_throws what ->
         get_full_column_type editor schema table column w
         = (logged w [call_executeQuery
                        (column_type_query schema table column);
                      call_log_exception
                        "Exception getting column information: "
                        (column_type_query schema table column) what],
            Ok ""))
  /\ (forall f editable cb vcb,
         type f = "ENUM" \/ type f = "SET" ->
         create f "" editable cb vcb
         = Ok (new_StringFieldView (format_label (field f)) (display_size f)
                                   editable cb)
         /\ is_StringFieldView
              (new_StringFieldView (format_label (field f)) (display_size f)
                                   editable cb) = true)
  /\ (forall i f,
         type f = "ENUM" \/ type f = "SET" ->
         version_below (rdbms_version editor) 5 5
         \/ (exists what,
                aux_connection editor
                  (column_type_query (schema f) (table f) (field f))
                = connection_throws what
                \/ aux_connection editor
                     (column_type_query (schema f) (table f) (field f))
                   = query_throws what) ->
         snd (add_field editor i f w) = Ok tt
         /\ _fields (w_form (fst (add_field editor i f w)))
            = (_fields (w_form w)
                 ++ [new_StringFieldView (format_label (field f))
                       (display_size f) (_editable (w_form w))
                       (bind_update_value i)])%list).
Proof.
  assert (Hbelow : forall schema table column,
             version_below (rdbms_version editor) 5 5 ->
             get_full_column_type editor schema table column w = (w, Ok "")).
  { intros s t c Hv. unfold get_full_column_type.
    apply version_below_5_5 in Hv. now rewrite Hv. }
  assert (Hconn : forall schema table column what,
             ~ version_below (rdbms_version editor) 5 5 ->
             aux_connection editor (column_type_query schema table column)
             = connection_throws what ->
             get_full_column_type editor schema table column w
             = (logged w [call_log_exception
                            "Exception getting column information: "
                            (column_type_query schema table column) what],
                Ok "")).
  { intros s t c what Hv Hq. unfold get_full_column_type.
    destruct (is_supported_mysql_version_at_least (rdbms_version editor) 5 5)
      eqn:Es; [|now apply version_below_5_5 in Es].
    now rewrite Hq. }
  assert (Hquery : forall schema table column what,
             ~ version_below (rdbms_version editor) 5 5 ->
             aux_connection editor (column_type_query schema table column)
             = query_throws what ->
             get_full_column_type editor schema table column w
             = (logged w [call_executeQuery
                            (column_type_query schema table column);
                          call_log_exception
                            "Exception getting column information: "
                            (column_type_query schema table column) what],
                Ok "")).
  { intros s t c what Hv Hq. unfold get_full_column_type.
    destruct (is_supported_mysql_version_at_least (rdbms_version editor) 5 5)
      eqn:Es; [|now apply version_below_5_5 in Es].
    rewrite Hq. unfold bind, emit, ret, logged. cbn.
    now rewrite <- app_assoc. }
  split; [exact Hbelow|]. split; [exact Hconn|]. split; [exact Hquery|].
  split.
  - intros f editable cb vcb Ht. split.
    + now apply create_without_full_type.
    + rewrite new_StringFieldView_shape. reflexivity.
  - intros i f Ht Hfail.
    assert (Hfull : exists evs,
               (if (String.eqb (type f) "ENUM" || String.eqb (type f) "SET")
                   && negb (StdString.empty (table f))
                then get_full_column_type editor (schema f) (table f)
                                          (field f)
                else ret "") w = (logged w evs, Ok "")).
    { destruct ((String.eqb (type f) "ENUM" || String.eqb (type f) "SET")
                && negb (StdString.empty (table f))).
      - destruct (is_supported_mysql_version_at_least
                    (rdbms_version editor) 5 5) eqn:Es.
        + assert (Hv : ~ version_below (rdbms_version editor) 5 5).
          { intros Hv. apply version_below_5_5 in Hv. congruence. }
          destruct Hfail as [Hb|(what & [Hq|Hq])]; [contradiction| |];
            eexists; [eapply Hconn | eapply Hquery]; eassumption.
        + exists []. rewrite Hbelow by (now apply version_below_5_5).
          unfold logged. now rewrite app_nil_r, world_eta.
      - exists []. unfold ret, logged. now rewrite app_nil_r, world_eta. }
    destruct Hfull as [evs Hfull].
    unfold add_field, bind. rewrite Hfull.
    unfold get_form, lift. cbn [w_form logged].
    rewrite create_without_full_type by assumption.
    cbn. split; reflexivity.
Qed.

Lemma get_full_column_type_fallback_witness :
  get_full_column_type (sample_editor 5 1 (first_row "enum('a','b')"))
                       "test" "t" "c" (sample_world 0)
  = (sample_world 0, Ok "")
  /\ get_full_column_type (sample_editor 5 6 (query_throws "gone away"))
                          "test" "t" "c" (sample_world 0)
     = (logged (sample_world 0)
          [call_executeQuery (column_type_query "test" "t" "c");
           call_log_exception "Exception getting column information: "
             (column_type_query "test" "t" "c") "gone away"],
        Ok "").
Proof.
  split.
  - apply (proj1 (get_full_column_type_fallback
                    (sample_editor 5 1 (first_row "enum('a','b')"))
                    (sample_world 0))).
    right. cbn. lia.
  - apply (proj1 (proj2 (proj2 (get_full_column_type_fallback
                    (sample_editor 5 6 (query_throws "gone away"))
                    (sample_world 0))))).
    + unfold version_below. cbn. lia.
    + reflexivity.
Defined.

(** ** Initialisation *)

Lemma driver_only_emit e : driver_event e -> preserves driver_only (emit e).
Proof.
  intros He w. split; [reflexivity|]. exists [e]. split; [reflexivity|].
  now constructor.
Qed.

Lemma driver_only_with_form f : preserves driver_only (with_form f).
Proof.
  intros w. split; [reflexivity|]. exists []. split; [|constructor].
  cbn. now rewrite app_nil_r.
Qed.

Lemma driver_only_get_full_column_type editor schema table column :
  preserves driver_only (get_full_column_type editor schema table column).
Proof.
  unfold get_full_column_type.
  destruct (is_supported_mysql_version_at_least (rdbms_version editor) 5 5).
  - frame driver_only_refl driver_only_trans;
      now apply driver_only_emit.
  - apply (@preserves_ret _ driver_only_refl).
Qed.

Lemma driver_only_add_field editor i iter :
  preserves driver_only (add_field editor i iter).
Proof.
  unfold add_field.
  apply (@preserves_bind _ driver_only_trans).
  - destruct ((String.eqb (type iter) "ENUM" || String.eqb (type iter) "SET")
              && negb (StdString.empty (table iter))).
    + apply driver_only_get_full_column_type.
    + apply (@preserves_ret _ driver_only_refl).
  - intros full_type.
    frame driver_only_refl driver_only_trans; apply driver_only_with_form.
Qed.

Lemma driver_only_build_field_views editor r :
  preserves driver_only (build_field_views editor r).
Proof.
  unfold build_field_views. destruct (data_storage r).
  - apply (@preserves_for_each _ driver_only_refl driver_only_trans).
    intros i x. apply driver_only_add_field.
  - apply (@preserves_throw _ driver_only_refl).
Qed.

(** C7.  When the recordset handed to [init_for_resultset] is alive, has
    no edited row (a negative index) and at least one row, the edited
    field is set to row 0, column 0, and the hook is called if there is
    one, before any field view is built: the run is the building of the
    views from the world where that has been done, and the building only
    talks to the driver, so that the recordset ends at (0, 0) and every
    later entry of the log is a driver call. *)
Theorem init_selects_first_row (w : World) (r : Recordset)
        (editor : SqlEditorForm) :
  w_rset w = Some r ->
  Rs.edited_field_row r < 0 ->
  1 <= Rs.count r ->
  init_for_resultset ptr_to_recordset editor w
  = build_field_views editor r (first_row_selected w r)
  /\ _fields (w_form (first_row_selected w r)) = _fields (w_form w)
  /\ (exists r',
         w_rset (fst (init_for_resultset ptr_to_recordset editor w)) = Some r'
         /\ r' = Rs.set_edited_field 0 0 (Rs.connect_refresh_ui r)
         /\ Rs.edited_field_row r' = 0 /\ Rs.edited_field_column r' = 0)
  /\ (exists evs,
         w_log (fst (init_for_resultset ptr_to_recordset editor w))
         = (w_log w ++ hook_calls r ++ evs)%list
         /\ Forall driver_event evs).
Proof.
  intros Hr Hrow Hcount.
  assert (Hrun : init_for_resultset ptr_to_recordset editor w
                 = build_field_views editor r (first_row_selected w r)).
  { unfold init_for_resultset, bind, lock, with_form, with_rset, when, emit.
    rewrite Hr. cbn [option_map w_rset w_form w_log].
    destruct (Z.ltb_spec (Rs.edited_field_row r) 0); [|lia].
    destruct (Z.gtb_spec (Rs.count r) 0); [|lia].
    cbn [andb option_map w_rset w_form w_log].
    unfold build_field_views, first_row_selected, hook_calls.
    destruct (update_edited_field r);
      cbn [option_map w_rset w_form w_log ret];
      rewrite ?app_nil_r; reflexivity. }
  destruct (driver_only_build_field_views editor r (first_row_selected w r))
    as (Hrs & evs & Hlog & Hevs).
  rewrite <- Hrun in Hrs, Hlog.
  split; [exact Hrun|]. split; [reflexivity|]. split.
  - eexists. split; [exact Hrs|]. repeat split.
  - exists evs. split; [|exact Hevs].
    rewrite Hlog. cbn [first_row_selected w_log]. now rewrite app_assoc.
Qed.

Lemma init_selects_first_row_witness :
  exists evs,
    w_log (fst (init_for_resultset ptr_to_recordset
                  (sample_editor 5 6 (first_row "enum('a','b')"))
                  (sample_world (-1))))
    = ([] ++ hook_calls (sample_recordset (-1)) ++ evs)%list
    /\ Forall driver_event evs.
Proof.
  refine (proj2 (proj2 (proj2
            (init_selects_first_row (sample_world (-1))
               (sample_recordset (-1))
               (sample_editor 5 6 (first_row "enum('a','b')")) _ _ _)))).
  - reflexivity.
  - cbn. lia.
  - cbn. lia.
Defined.

(** The run the specification describes: three rows, columns VARCHAR(20),
    TEXT and ENUM('a','b'), a 5.6 server.  The panel gets an entry, a text
    box and a selector; [next] goes from row 0 to 1 and 2 and then stays. *)
Example init_sample :
  let next := navigate (action_item "next" "" "") in
  let row w := option_map Rs.edited_field_row (w_rset w) in
  let w := fst (init_for_resultset ptr_to_recordset
                  (sample_editor 5 6 (first_row "enum('a','b')"))
                  (sample_world (-1))) in
  w_rset w
  = Some (Rs.set_edited_field 0 0
            (Rs.connect_refresh_ui (sample_recordset (-1))))
  /\ w_log w = [call_update_edited_field;
                call_executeQuery (column_type_query "test" "t" "c")]
  /\ map (fun v => (is_StringFieldView v, is_TextFieldView v, expands v))
         (_fields (w_form w))
     = [(true, false, false); (false, true, true); (false, false, false)]
  /\ map value_size (_fields (w_form w))
     = [Some (200, -1); Some (-1, 60); None]
  /\ row (fst (next w)) = Some 1
  /\ row (fst (next (fst (next w)))) = Some 2
  /\ row (fst (next (fst (next (fst (next w)))))) = Some 2.
Proof. vm_compute. repeat split. Qed.

(** * Further properties of the panel *)

(** ** Edits and the field editor *)

(** X1.  [update_value] on a live recordset writes the value into the
    cell of the edited row and the given column when the edited row lies
    within the rows, and does nothing at all when it does not (no edited
    row, or a row past the end); panel and log are never touched and the
    method returns normally. *)
Theorem update_value_guard (w : World) (r : Recordset) (column : Z)
        (value : string) :
  snd (lock_rset w) = Ok (Some r) ->
  (0 <= Rs.edited_field_row r < Rs.count r ->
   update_value column value w
   = (with_recordset w
        (Rs.set_field (Rs.edited_field_row r) column value r), Ok tt))
  /\ (Rs.edited_field_row r < 0 \/ Rs.count r <= Rs.edited_field_row r ->
      update_value column value w = (w, Ok tt)).
Proof.
  intros Hlock. pose proof (lock_rset_alive _ _ Hlock) as Hr.
  unfold update_value. rewrite (bind_lock_rset _ _ _ _ Hlock).
  split; intros Hrow.
  - destruct (Z.gtb_spec (Rs.count r) (Rs.edited_field_row r)); [|lia].
    destruct (Z.geb_spec (Rs.edited_field_row r) 0); [|lia].
    cbn [andb when]. unfold with_rset, with_recordset. now rewrite Hr.
  - destruct (Z.gtb_spec (Rs.count r) (Rs.edited_field_row r));
      destruct (Z.geb_spec (Rs.edited_field_row r) 0);
      try lia; reflexivity.
Qed.

Lemma update_value_guard_witness :
  update_value 0 "zoe" (sample_world 1)
  = (with_recordset (sample_world 1)
       (Rs.set_field 1 0 "zoe" (sample_recordset 1)), Ok tt)
  /\ update_value 0 "zoe" (sample_world 3) = (sample_world 3, Ok tt).
Proof.
  split.
  - apply (proj1 (update_value_guard (sample_world 1) (sample_recordset 1)
                    0 "zoe" eq_refl)).
    cbn. lia.
  - apply (proj2 (update_value_guard (sample_world 3) (sample_recordset 3)
                    0 "zoe" eq_refl)).
    right. cbn. lia.
Defined.

(** X2.  [open_field_editor] on a live recordset asks the recordset for
    the data editor of the edited row and the given column, once, when
    the edited row lies within the rows, and does nothing when it does
    not; recordset and panel are never touched. *)
Theorem open_field_editor_guard (w : World) (r : Recordset) (column : Z) :
  snd (lock_rset w) = Ok (Some r) ->
  (0 <= Rs.edited_field_row r < Rs.count r ->
   open_field_editor column w
   = (logged w [call_open_field_data_editor (Rs.edited_field_row r) column],
      Ok tt))
  /\ (Rs.edited_field_row r < 0 \/ Rs.count r <= Rs.edited_field_row r ->
      open_field_editor column w = (w, Ok tt)).
Proof.
  intros Hlock.
  unfold open_field_editor. rewrite (bind_lock_rset _ _ _ _ Hlock).
  split; intros Hrow.
  - destruct (Z.ltb_spec (Rs.edited_field_row r) (Rs.count r)); [|lia].
    destruct (Z.geb_spec (Rs.edited_field_row r) 0); [|lia].
    reflexivity.
  - destruct (Z.ltb_spec (Rs.edited_field_row r) (Rs.count r));
      destruct (Z.geb_spec (Rs.edited_field_row r) 0);
      try lia; reflexivity.
Qed.

Lemma open_field_editor_guard_witness :
  open_field_editor 2 (sample_world 0)
  = (logged (sample_world 0) [call_open_field_data_editor 0 2], Ok tt)
  /\ open_field_editor 2 (sample_world (-1)) = (sample_world (-1), Ok tt).
Proof.
  split.
  - apply (proj1 (open_field_editor_guard (sample_world 0)
                    (sample_recordset 0) 2 eq_refl)).
    cbn. lia.
  - apply (proj2 (open_field_editor_guard (sample_world (-1))
                    (sample_recordset (-1)) 2 eq_refl)).
    left. cbn. lia.
Defined.

(** ** The checklist, in general *)

Lemma changed_loop_drop nodes :
  changed_loop nodes ""
  = String.concat ","
      (drop_leading_empty (map node_string1 (filter node_bool0 nodes))).
Proof.
  induction nodes as [|n nodes IH]; [reflexivity|].
  cbn [changed_loop filter]. destruct (node_bool0 n); [|exact IH].
  cbn [StdString.empty map drop_leading_empty append].
  destruct (node_string1 n) as [|c s] eqn:El.
  - exact IH.
  - cbn [StdString.empty].
    rewrite changed_loop_acc by discriminate.
    rewrite concat_cons. now rewrite map_map.
Qed.

Lemma set_value_overrides_marks tree value value' :
  SetFieldView_set_value (SetFieldView_set_value tree value') value
  = SetFieldView_set_value tree value.
Proof.
  unfold SetFieldView_set_value. cbn [tree_nodes tree_size tree_enabled].
  now rewrite map_map.
Qed.

(** X3.  The value the checklist's change handler computes is the labels
    of the checked rows, in row order, joined by commas, except that
    empty labels at the head of that list are lost: the handler writes a
    comma only once the value is no longer empty. *)
Theorem changed_joins_checked (tree : TreeNodeView) :
  SetFieldView_changed tree
  = String.concat ","
      (drop_leading_empty
         (map node_string1 (filter node_bool0 (tree_nodes tree)))).
Proof. apply changed_loop_drop. Qed.

(** X4.  [SetFieldView::set_value] checks exactly the rows whose label
    is one of the comma-separated parts of the value, whatever was
    checked before, and keeps the labels and their order; the change
    handler then returns those labels in row order (not in the order of
    the value), without the empty ones at the head. *)
Theorem set_value_then_changed (tree : TreeNodeView) (value : string) :
  map node_string1 (tree_nodes (SetFieldView_set_value tree value))
  = map node_string1 (tree_nodes tree)
  /\ map node_bool0 (tree_nodes (SetFieldView_set_value tree value))
     = map (fun l => mem_string l (split_token_list value ","))
           (map node_string1 (tree_nodes tree))
  /\ (forall earlier,
         SetFieldView_set_value (SetFieldView_set_value tree earlier) value
         = SetFieldView_set_value tree value)
  /\ SetFieldView_changed (SetFieldView_set_value tree value)
     = String.concat ","
         (drop_leading_empty
            (filter (fun l => mem_string l (split_token_list value ","))
                    (map node_string1 (tree_nodes tree)))).
Proof.
  split; [|split; [|split]].
  - unfold SetFieldView_set_value. cbn [tree_nodes].
    rewrite map_map. reflexivity.
  - unfold SetFieldView_set_value. cbn [tree_nodes].
    rewrite !map_map. reflexivity.
  - intros earlier. apply set_value_overrides_marks.
  - unfold SetFieldView_changed.
    now rewrite changed_loop_drop, set_value_checked.
Qed.

(** ** The stripping of a token *)

(** X5.  The step of [parse_enum_definition] that strips a token drops
    its first and its last character whatever they are; a token of one
    character becomes the empty string, and an empty token makes
    [substr] throw [out_of_range]. *)
Theorem strip_quotes_cases :
  strip_quotes "" = Throw out_of_range
  /\ (forall c, strip_quotes (String c "") = Ok "")
  /\ (forall a body b,
         strip_quotes (String a (body ++ String b "")) = Ok body).
Proof.
  split; [reflexivity|]. split; [reflexivity|].
  intros a body b. unfold strip_quotes.
  change (String a (body ++ String b ""))
    with (String a "" ++ body ++ String b "").
  assert (Hsz : StdString.size (String a "" ++ body ++ String b "")
                = StdString.size body + 2).
  { rewrite !size_app. unfold StdString.size. simpl String.length. lia. }
  rewrite Hsz. pose proof (size_nonneg body).
  unfold CInt.size_sub.
  destruct (Z.ltb_spec (StdString.size body + 2) 2); [lia|].
  replace (StdString.size body + 2 - 2) with (StdString.size body) by lia.
  change 1 with (StdString.size (String a "")).
  now rewrite substr_middle.
Qed.

(** ** What [create] hands on *)

Lemma changed_loop_unchecked items value :
  changed_loop
    (map (fun i => {| node_bool0 := false; node_string1 := i |}) items) value
  = value.
Proof. induction items as [|i items IH]; [reflexivity | exact IH]. Qed.

Lemma create_view f full_type editable cb vcb :
  exists v,
    create f full_type editable cb vcb = Ok v
    /\ label v = format_label (field f)
    /\ change_callback v = cb
    /\ (is_BlobFieldView v = true <-> type f = "BLOB")
    /\ enabled v = (if is_BlobFieldView v then None else Some editable)
    /\ view_callback v = (if is_BlobFieldView v then Some vcb else None)
    /\ changed v = (if is_BlobFieldView v then None else Some (cb, "")).
Proof.
  unfold create.
  destruct (parse_enum_definition_total full_type) as [items ->].
  cbn [rbind]. unfold new_StringFieldView, new_SetFieldView.
  repeat match goal with
         | |- context [if String.eqb ?a ?b then _ else _] =>
             destruct (String.eqb_spec a b)
         | |- context [if ?b then _ else _] => destruct b eqn:?
         end;
    eexists; (split; [reflexivity|]); cbn;
    unfold SetFieldView_changed; cbn [tree_nodes];
    rewrite ?changed_loop_unchecked;
    repeat split; intros; try congruence; try discriminate.
Qed.

(** X6.  [create] always returns a view (it cannot throw); its label is
    the formatted field name and its change callback the one given; the
    value widget takes the editable flag, except for the BLOB placeholder,
    which has none, is made for the type BLOB only and alone carries the
    view callback; and a fresh view holds the empty value. *)
Theorem create_hands_on (f : FieldInfo) (full_type : string)
        (editable : bool) (cb : ChangeCallback) (vcb : ViewCallback) :
  exists v,
    create f full_type editable cb vcb = Ok v
    /\ label v = format_label (field f)
    /\ change_callback v = cb
    /\ (is_BlobFieldView v = true <-> type f = "BLOB")
    /\ enabled v = (if is_BlobFieldView v then None else Some editable)
    /\ view_callback v = (if is_BlobFieldView v then Some vcb else None)
    /\ changed v = (if is_BlobFieldView v then None else Some (cb, "")).
Proof. apply create_view. Qed.

(** ** The full column type, in general *)

Lemma get_full_column_type_run editor schema table column w :
  exists evs column_type,
    get_full_column_type editor schema table column w
    = (logged w evs, Ok column_type)
    /\ Forall driver_event evs
    /\ (List.length evs <= 2)%nat
    /\ (version_below (rdbms_version editor) 5 5 -> evs = [])
    /\ (column_type <> "" ->
        aux_connection editor (column_type_query schema table column)
        = first_row column_type)
    /\ (forall answer,
           ~ version_below (rdbms_version editor) 5 5 ->
           aux_connection editor (column_type_query schema table column)
           = first_row answer ->
           column_type = answer
           /\ evs = [call_executeQuery
                       (column_type_query schema table column)]).
Proof.
  unfold get_full_column_type.
  destruct (is_supported_mysql_version_at_least (rdbms_version editor) 5 5)
    eqn:Es.
  - assert (Hv : ~ version_below (rdbms_version editor) 5 5).
    { intros Hv. apply version_below_5_5 in Hv. congruence. }
    destruct (aux_connection editor (column_type_query schema table column))
      as [what|what| |ct] eqn:Eq;
      eexists; eexists;
      (split;
       [ unfold bind, emit, ret, logged; cbn [w_rset w_form w_log];
         rewrite <- ?app_assoc; reflexivity |]).
    all: split; [repeat (constructor; try exact I)|].
    all: split; [cbn; lia|].
    all: split; [intros Hb; contradiction|].
    all: split;
      [ intros Hne; try congruence
      | intros answer _ Ha; try discriminate Ha; injection Ha as <-;
        now split ].
  - exists [], "". split.
    { unfold ret, logged. now rewrite app_nil_r, world_eta. }
    split; [constructor|]. split; [cbn; lia|]. split; [reflexivity|].
    split; [congruence|].
    intros answer Hv. apply version_below_5_5 in Es. contradiction.
Qed.

(** X7.  [get_full_column_type] always returns normally and touches
    neither recordset nor panel; it leaves at most two entries in the
    log, all of them driver calls, and none on a server below 5.5; its
    result is the first column of the first row when the driver yields
    one, and is non-empty only in that case. *)
Theorem get_full_column_type_effects (editor : SqlEditorForm)
        (schema table column : string) (w : World) :
  exists evs column_type,
    get_full_column_type editor schema table column w
    = (logged w evs, Ok column_type)
    /\ Forall driver_event evs
    /\ (List.length evs <= 2)%nat
    /\ (version_below (rdbms_version editor) 5 5 -> evs = [])
    /\ (column_type <> "" ->
        aux_connection editor (column_type_query schema table column)
        = first_row column_type)
    /\ (forall answer,
           ~ version_below (rdbms_version editor) 5 5 ->
           aux_connection editor (column_type_query schema table column)
           = first_row answer ->
           column_type = answer
           /\ evs = [call_executeQuery
                       (column_type_query schema table column)]).
Proof. apply get_full_column_type_run. Qed.

(** ** Initialisation, in general *)

Lemma place_fields i v f : _fields (place i v f) = (_fields f ++ [v])%list.
Proof. reflexivity. Qed.

Lemma add_field_run editor i iter w :
  exists v evs full_type,
    add_field editor i iter w
    = ({| w_rset := w_rset w; w_form := place i v (w_form w);
          w_log := w_log w ++ evs |}, Ok tt)
    /\ create iter full_type (_editable (w_form w))
              (bind_update_value i) (bind_open_field_editor i) = Ok v
    /\ Forall driver_event evs.
Proof.
  assert (Hfull : exists evs full_type,
             (if (String.eqb (type iter) "ENUM"
                  || String.eqb (type iter) "SET")
                 && negb (StdString.empty (table iter))
              then get_full_column_type editor (schema iter) (table iter)
                                        (field iter)
              else ret "") w = (logged w evs, Ok full_type)
             /\ Forall driver_event evs).
  { destruct ((String.eqb (type iter) "ENUM" || String.eqb (type iter) "SET")
              && negb (StdString.empty (table iter))).
    - destruct (get_full_column_type_run editor (schema iter) (table iter)
                  (field iter) w) as (evs & ct & E & Hevs & _).
      now exists evs, ct.
    - exists [], "". split; [|constructor].
      unfold ret, logged. now rewrite app_nil_r, world_eta. }
  destruct Hfull as (evs & full_type & Hfull & Hevs).
  destruct (create_total iter full_type (_editable (w_form w))
              (bind_update_value i) (bind_open_field_editor i)) as [v Hv].
  exists v, evs, full_type. split; [|now split].
  unfold add_field, bind. rewrite Hfull.
  unfold get_form, lift. cbn [w_form logged]. rewrite Hv.
  reflexivity.
Qed.

Lemma build_run editor fi : forall i w,
  0 <= i -> i + Z.of_nat (List.length fi) <= CInt.INT_MAX ->
  exists views evs,
    for_each (add_field editor) i fi w
    = ({| w_rset := w_rset w;
          w_form := set_fields (_fields (w_form w) ++ views)
                      (set_table (_table_row_count (w_form w))
                         (_table (w_form w) ++ placed i views) (w_form w));
          w_log := w_log w ++ evs |}, Ok tt)
    /\ Forall driver_event evs
    /\ List.length views = List.length fi
    /\ (forall k info v,
           nth_error fi k = Some info -> nth_error views k = Some v ->
           exists full_type,
             create info full_type (_editable (w_form w))
                    (bind_update_value (i + Z.of_nat k))
                    (bind_open_field_editor (i + Z.of_nat k)) = Ok v).
Proof.
  induction fi as [|info fi IH]; intros i w Hi Hlen.
  - exists [], []. split; [|split; [constructor|split; [reflexivity|]]].
    + cbn [for_each placed]. unfold ret. rewrite !app_nil_r.
      f_equal. destruct w as [rs f l]. cbn. f_equal. now destruct f.
    + intros [|k]; discriminate.
  - assert (Hlen' : i + 1 + Z.of_nat (List.length fi) <= CInt.INT_MAX).
    { change (List.length (info :: fi)) with (S (List.length fi)) in Hlen.
      lia. }
    cbn [for_each]. unfold bind.
    destruct (add_field_run editor i info w) as (v & evs1 & ft & Erun & Hv & H1).
    rewrite Erun.
    assert (Hadd : CInt.add i 1 = i + 1).
    { apply wrap_int_id. pose proof (Nat2Z.is_nonneg (List.length fi)).
      unfold CInt.in_int, CInt.INT_MIN, CInt.INT_MAX in *. lia. }
    rewrite Hadd.
    destruct (IH (i + 1)
                {| w_rset := w_rset w; w_form := place i v (w_form w);
                   w_log := w_log w ++ evs1 |}
                ltac:(lia) Hlen')
      as (views & evs2 & Erest & H2 & Hl & Hnth).
    rewrite Erest. exists (v :: views), (evs1 ++ evs2)%list.
    split; [|split; [|split]].
    + cbn [w_rset w_form w_log placed]. f_equal. f_equal.
      * destruct (w_form w). unfold place, set_fields, set_table. cbn.
        now rewrite <- !app_assoc.
      * now rewrite app_assoc.
    + apply Forall_app. now split.
    + cbn. now rewrite Hl.
    + intros [|k] info' v'; cbn [nth_error].
      * intros [= <-] [= <-]. exists ft. now rewrite Z.add_0_r.
      * intros Hk Hv'. destruct (Hnth k info' v' Hk Hv') as [ft' Hc].
        exists ft'. cbn [w_form place set_fields set_table _editable] in Hc.
        replace (i + Z.of_nat (S k)) with (i + 1 + Z.of_nat k) by lia.
        exact Hc.
Qed.

(** X8.  [init_for_resultset] with a weak reference that yields no
    recordset only stores the reference and returns: the field views, the
    table and the toolbar the panel had are all left in place. *)
Theorem init_without_recordset (p : weak_ptr) (editor : SqlEditorForm)
        (w : World) :
  snd (lock p w) = Ok None ->
  init_for_resultset p editor w
  = (with_panel w (set_rset p (w_form w)), Ok tt).
Proof.
  intros Hlock. unfold init_for_resultset, bind.
  change (lock p w) with (w, snd (lock p w)). rewrite Hlock.
  reflexivity.
Qed.

Lemma init_without_recordset_witness :
  init_for_resultset ptr_to_recordset
    (sample_editor 5 6 no_row) expired_world
  = (expired_world, Ok tt).
Proof.
  exact (init_without_recordset ptr_to_recordset (sample_editor 5 6 no_row)
           expired_world eq_refl).
Defined.

(** X9.  When the recordset handed to [init_for_resultset] already has an
    edited row, or has no rows at all, nothing is selected and the hook
    is not called: the recordset only gains the connection to its refresh
    signal, and everything the run leaves in the log is a driver call. *)
Theorem init_keeps_selection (w : World) (r : Recordset)
        (editor : SqlEditorForm) :
  w_rset w = Some r ->
  0 <= Rs.edited_field_row r \/ Rs.count r = 0 ->
  init_for_resultset ptr_to_recordset editor w
  = build_field_views editor r (bound_to w r)
  /\ w_rset (fst (init_for_resultset ptr_to_recordset editor w))
     = Some (Rs.connect_refresh_ui r)
  /\ (exists evs,
         w_log (fst (init_for_resultset ptr_to_recordset editor w))
         = (w_log w ++ evs)%list
         /\ Forall driver_event evs).
Proof.
  intros Hr Hrow.
  assert (Hrun : init_for_resultset ptr_to_recordset editor w
                 = build_field_views editor r (bound_to w r)).
  { unfold init_for_resultset, bind, lock, with_form, with_rset, when.
    rewrite Hr. cbn [option_map w_rset w_form w_log].
    assert (Hc : (Rs.edited_field_row r <? 0) && (Rs.count r >? 0) = false).
    { destruct (Z.ltb_spec (Rs.edited_field_row r) 0),
        (Z.gtb_spec (Rs.count r) 0); try reflexivity; lia. }
    rewrite Hc. unfold ret. reflexivity. }
  destruct (driver_only_build_field_views editor r (bound_to w r))
    as (Hrs & evs & Hlog & Hevs).
  rewrite <- Hrun in Hrs, Hlog.
  split; [exact Hrun|]. split; [exact Hrs|]. now exists evs.
Qed.

Lemma init_keeps_selection_witness :
  w_rset (fst (init_for_resultset ptr_to_recordset
                 (sample_editor 5 6 (first_row "enum('a','b')"))
                 (sample_world 2)))
  = Some (Rs.connect_refresh_ui (sample_recordset 2)).
Proof.
  refine (proj1 (proj2 (init_keeps_selection (sample_world 2)
                          (sample_recordset 2)
                          (sample_editor 5 6 (first_row "enum('a','b')"))
                          eq_refl _))).
  left. cbn. lia.
Defined.

Lemma init_run w r editor fi :
  w_rset w = Some r ->
  data_storage r = Recordset_cdbc_storage fi ->
  exists w0,
    init_for_resultset ptr_to_recordset editor w
    = for_each (add_field editor) 0 fi w0
    /\ w_form w0 = set_table (Rs.get_column_count r) (_table (w_form w))
                     (set_rset ptr_to_recordset (w_form w)).
Proof.
  intros Hr Hs.
  exists (if (Rs.edited_field_row r <? 0) && (Rs.count r >? 0)
          then first_row_selected w r else bound_to w r).
  split; [|now destruct ((Rs.edited_field_row r <? 0) && (Rs.count r >? 0))].
  unfold init_for_resultset, bind, lock, with_form, with_rset, when, emit.
  rewrite Hr. cbn [option_map w_rset w_form w_log]. rewrite Hs.
  destruct ((Rs.edited_field_row r <? 0) && (Rs.count r >? 0));
    [|reflexivity].
  unfold first_row_selected, hook_calls.
  destruct (update_edited_field r);
    cbn [option_map w_rset w_form w_log ret];
    rewrite ?app_nil_r; reflexivity.
Qed.

(** X10.  On a live recordset with the usual storage,
    [init_for_resultset] returns normally and adds one field view per
    column description, in their order, after the views the panel
    already had: view [k] is made by [create] from description [k], so
    it carries that field's formatted name, and its callbacks (the
    change callback, and the view callback of a BLOB placeholder) are
    bound to column [k]; the table gets the label and value cells of each
    view, row [k] for view [k], and as many rows as the recordset has
    columns. *)
Theorem init_builds_views (w : World) (r : Recordset)
        (editor : SqlEditorForm) (fi : list FieldInfo) :
  w_rset w = Some r ->
  data_storage r = Recordset_cdbc_storage fi ->
  Z.of_nat (List.length fi) <= CInt.INT_MAX ->
  exists views,
    snd (init_for_resultset ptr_to_recordset editor w) = Ok tt
    /\ _fields (w_form (fst (init_for_resultset ptr_to_recordset editor w)))
       = (_fields (w_form w) ++ views)%list
    /\ _table (w_form (fst (init_for_resultset ptr_to_recordset editor w)))
       = (_table (w_form w) ++ placed 0 views)%list
    /\ _table_row_count
         (w_form (fst (init_for_resultset ptr_to_recordset editor w)))
       = Rs.get_column_count r
    /\ List.length views = List.length fi
    /\ (forall k info v,
           nth_error fi k = Some info -> nth_error views k = Some v ->
           label v = format_label (field info)
           /\ change_callback v = bind_update_value (Z.of_nat k)
           /\ (is_BlobFieldView v = true ->
               view_callback v = Some (bind_open_field_editor (Z.of_nat k)))
           /\ exists full_type,
               create info full_type (_editable (w_form w))
                      (bind_update_value (Z.of_nat k))
                      (bind_open_field_editor (Z.of_nat k)) = Ok v).
Proof.
  intros Hr Hs Hlen.
  destruct (init_run w r editor fi Hr Hs) as (w0 & Hrun & Hform).
  destruct (build_run editor fi 0 w0 ltac:(lia) ltac:(lia))
    as (views & evs & Ebuild & _ & Hl & Hnth).
  exists views. rewrite Hrun, Ebuild. cbn [fst snd w_form].
  rewrite Hform. cbn [_fields _table _table_row_count set_fields set_table
                      set_rset _editable] in *.
  repeat (split; [reflexivity|]). split; [exact Hl|].
  intros k info v Hk Hv.
  destruct (Hnth k info v Hk Hv) as [ft Hc].
  rewrite Hform in Hc. cbn [_editable set_table set_rset] in Hc.
  change (0 + Z.of_nat k) with (Z.of_nat k) in Hc.
  destruct (create_view info ft (_editable (w_form w))
              (bind_update_value (Z.of_nat k))
              (bind_open_field_editor (Z.of_nat k)))
    as (v' & Hc' & Hlabel & Hcb & _ & _ & Hview & _).
  rewrite Hc in Hc'. injection Hc' as <-.
  split; [exact Hlabel|]. split; [exact Hcb|]. split; [|now exists ft].
  intros Hblob. now rewrite Hview, Hblob.
Qed.

Lemma init_builds_views_witness :
  exists views,
    _fields (w_form (fst (init_for_resultset ptr_to_recordset
                            (sample_editor 5 6 (first_row "enum('a','b')"))
                            (sample_world 0))))
    = views
    /\ List.length views = 3%nat.
Proof.
  destruct (init_builds_views (sample_world 0) (sample_recordset 0)
              (sample_editor 5 6 (first_row "enum('a','b')"))
              [ sample_column "VARCHAR" 20; sample_column "TEXT" 65535;
                sample_column "ENUM" 1 ]
              eq_refl eq_refl)
    as (views & _ & Hf & _ & _ & Hl & _).
  - cbn. unfold CInt.INT_MAX. lia.
  - exists views. split; [exact Hf | exact Hl].
Defined.

(** ** The redisplay, in general *)



Lemma map_update_nth A B (g : A -> B) (h : A -> A) l :
  (forall x, g (h x) = g x) ->
  forall i, map g (Rs.update_nth i h l) = map g l.
Proof.
  intros H. induction l as [|x l IH]; intros [|i]; cbn [Rs.update_nth map];
    try reflexivity.
  - now rewrite H.
  - now rewrite IH.
Qed.

Lemma same_layout_refl f : same_layout f f.
Proof. now repeat split. Qed.








Lemma display_fields_nth r fields : forall c k v,
  0 <= c -> c + Z.of_nat k <= CInt.INT_MAX ->
  nth_error fields k = Some v ->
  nth_error (display_fields r c fields) k
  = Some (set_value v
            (Rs.get_field_repr_no_truncate r (Rs.edited_field_row r)
                                           (c + Z.of_nat k))
            (Rs.is_field_null r (Rs.edited_field_row r) (c + Z.of_nat k))).
Proof.
  induction fields as [|x fields IH]; intros c [|k] v Hc Hk;
    cbn [nth_error display_fields]; try discriminate.
  - intros [= <-]. now rewrite Z.add_0_r.
  - intros Hv.
    assert (Hadd : CInt.add c 1 = c + 1).
    { apply wrap_int_id.
      unfold CInt.in_int, CInt.INT_MIN, CInt.INT_MAX in *. lia. }
    rewrite Hadd, (IH (c + 1) k v) by (assumption || lia).
    now replace (c + 1 + Z.of_nat k) with (c + Z.of_nat (S k)) by lia.
Qed.

Lemma fields_kept_refl w : fields_kept w w.
Proof. reflexivity. Qed.

Lemma fields_kept_trans a b c :
  fields_kept a b -> fields_kept b c -> fields_kept a c.
Proof. unfold fields_kept. congruence. Qed.

Lemma display_record_fields w r :
  snd (lock_rset w) = Ok (Some r) ->
  _fields (w_form (fst (display_record w)))
  = display_fields r 0 (_fields (w_form w)).
Proof.
  intros Hlock. unfold display_record.
  rewrite (bind_lock_rset _ _ _ _ Hlock). unfold bind at 1.
  cbn [with_form].
  match goal with
  | |- _fields (w_form (fst (?rest ?w1))) = _ =>
      assert (H : preserves fields_kept rest)
  end.
  { unfold label_item_set_text, tbar_set_enabled.
    frame fields_kept_refl fields_kept_trans; intros w'; reflexivity. }
  rewrite (H _). reflexivity.
Qed.

(** X12.  After [display_record] on a live recordset, the view of column
    [k] has been given the text and the NULL flag of the cell at the
    edited row and column [k], for every view the panel holds, even when
    the method then fails on the toolbar. *)
Theorem display_record_shows_row (w : World) (r : Recordset) (k : nat)
        (v : FieldView) :
  snd (lock_rset w) = Ok (Some r) ->
  Z.of_nat k <= CInt.INT_MAX ->
  nth_error (_fields (w_form w)) k = Some v ->
  nth_error (_fields (w_form (fst (display_record w)))) k
  = Some (set_value v
            (Rs.get_field_repr_no_truncate r (Rs.edited_field_row r)
                                           (Z.of_nat k))
            (Rs.is_field_null r (Rs.edited_field_row r) (Z.of_nat k))).
Proof.
  intros Hlock Hk Hv. rewrite (display_record_fields w r Hlock).
  now rewrite (display_fields_nth r _ 0 k v) by (assumption || lia).
Qed.

Lemma display_record_shows_row_witness :
  option_map changed
    (nth_error (_fields (w_form (fst (display_record (sample_panel 1))))) 0)
  = Some (Some (bind_update_value 0, "bob")).
Proof.
  pose proof (display_record_shows_row (sample_panel 1)
                (Rs.connect_refresh_ui (sample_recordset 1)) 0
                (new_StringFieldView "C:" 20 true (bind_update_value 0))
                eq_refl) as H.
  rewrite H.
  - reflexivity.
  - cbn. unfold CInt.INT_MAX. lia.
  - reflexivity.
Defined.

(** ** The toolbar *)

Lemma find_item_names t t' name :
  map item_name t = map item_name t' -> find_item t name = find_item t' name.
Proof.
  revert t'. induction t as [|x t IH]; intros [|x' t']; cbn [map find_item];
    try discriminate; [reflexivity|].
  intros [= Hx Ht]. rewrite Hx. now rewrite (IH t' Ht).
Qed.

Lemma constructed_items e name :
  In name ["first"; "back"; "next"; "last"] ->
  find_item (_tbar (new_ResultFormView e)) name
  = if String.eqb name "first" then Some 3%nat
    else if String.eqb name "back" then Some 4%nat
    else if String.eqb name "next" then Some 6%nat
    else Some 7%nat.
Proof.
  cbn [In]. intros [<-|[<-|[<-|[<-|[]]]]]; now destruct e.
Qed.

Lemma display_record_constructed w r e :
  snd (lock_rset w) = Ok (Some r) ->
  tbar_names (w_form w) = tbar_names (new_ResultFormView e) ->
  display_record w
  = (with_panel w
       (set_tbar
          (displayed_tbar r (_label_item (w_form w)) (_tbar (w_form w)))
          (set_fields (display_fields r 0 (_fields (w_form w))) (w_form w))),
     Ok 0).
Proof.
  intros Hlock Hnames. unfold tbar_names in Hnames.
  assert (Hfind : forall name,
             In name ["first"; "back"; "next"; "last"] ->
             find_item (_tbar (w_form w)) name
             = find_item (_tbar (new_ResultFormView e)) name).
  { intros name _. now apply find_item_names. }
  unfold display_record. rewrite (bind_lock_rset _ _ _ _ Hlock).
  unfold tbar_set_enabled, label_item_set_text, with_form, bind, get_form,
    ret.
  cbn [w_form w_rset w_log _tbar set_tbar set_fields _fields _label_item].
  repeat (rewrite ?find_item_update_nth by reflexivity;
          rewrite Hfind, constructed_items by (cbn; auto 6);
          cbn [String.eqb Ascii.eqb Bool.eqb];
          cbn [w_form w_rset w_log _tbar set_tbar set_fields _fields
                      _label_item]).
  unfold with_panel, displayed_tbar.
  destruct (w_form w); reflexivity.
Qed.

Lemma display_record_ok w e :
  tbar_names (w_form w) = tbar_names (new_ResultFormView e) ->
  snd (display_record w) = Ok 0.
Proof.
  intros Hnames. destruct (snd (lock_rset w)) as [[r|]|x] eqn:El.
  - now rewrite (display_record_constructed w r e El Hnames).
  - unfold display_record. now rewrite (bind_lock_rset _ _ _ _ El).
  - discriminate El.
Qed.

Lemma then_display_ok (m : M unit) w e :
  snd (m w) = Ok tt ->
  tbar_names (w_form (fst (m w))) = tbar_names (new_ResultFormView e) ->
  snd ((m ;; display_record ;; ret tt) w) = Ok tt.
Proof.
  intros Hm Hnames. unfold bind at 1.
  destruct (m w) as [w1 [[]|x]]; [|discriminate Hm]. cbn [fst] in Hnames.
  unfold bind. pose proof (display_record_ok w1 e Hnames) as Hd.
  destruct (display_record w1) as [w2 [z|x]]; [reflexivity | discriminate Hd].
Qed.

Lemma navigate_ok w e item :
  tbar_names (w_form w) = tbar_names (new_ResultFormView e) ->
  snd (navigate item w) = Ok tt.
Proof.
  intros Hnames. unfold navigate.
  destruct (snd (lock_rset w)) as [[r|]|x] eqn:El; [| |discriminate El];
    rewrite (bind_lock_rset _ _ _ _ El); [|reflexivity].
  destruct (Rs.edited_field_row r <? 0); [reflexivity|].
  apply (then_display_ok _ w e);
    repeat match goal with
           | |- context [if ?b then _ else _] => destruct b
           end;
    unfold move_to, bind, with_rset, when, emit, ret;
    try destruct (update_edited_field r); try reflexivity; exact Hnames.
Qed.

Lemma names_kept_refl w : names_kept w w.
Proof. now split. Qed.

Lemma names_kept_trans a b c :
  names_kept a b -> names_kept b c -> names_kept a c.
Proof. unfold names_kept. intros [? ?] [? ?]. split; congruence. Qed.

Lemma names_kept_with_form g :
  (forall f, tbar_names (g f) = tbar_names f
             /\ _label_item (g f) = _label_item f) ->
  preserves names_kept (with_form g).
Proof. intros Hg w. apply Hg. Qed.

Lemma names_kept_with_rset g : preserves names_kept (with_rset g).
Proof. intros w. now split. Qed.

Lemma names_kept_emit ev : preserves names_kept (emit ev).
Proof. intros w. now split. Qed.

Lemma names_kept_set_tbar h i f :
  (forall x, item_name (h x) = item_name x) ->
  tbar_names (set_tbar (Rs.update_nth i h (_tbar f)) f) = tbar_names f
  /\ _label_item (set_tbar (Rs.update_nth i h (_tbar f)) f) = _label_item f.
Proof.
  intros Hh. split; [|reflexivity]. unfold tbar_names. cbn [set_tbar _tbar].
  now apply map_update_nth.
Qed.

Ltac names_frame :=
  frame names_kept_refl names_kept_trans;
  try apply names_kept_with_rset; try apply names_kept_emit;
  try (apply names_kept_with_form; intros ?;
       first [ now apply names_kept_set_tbar | now split ]).

Lemma names_kept_display_record : preserves names_kept display_record.
Proof.
  unfold display_record, lock_rset, label_item_set_text, tbar_set_enabled.
  names_frame.
Qed.

Lemma names_kept_navigate item : preserves names_kept (navigate item).
Proof.
  unfold navigate, lock_rset, move_to.
  names_frame; apply names_kept_display_record.
Qed.

Lemma names_kept_update_value column value :
  preserves names_kept (update_value column value).
Proof. unfold update_value, lock_rset. names_frame. Qed.

Lemma names_kept_open_field_editor column :
  preserves names_kept (open_field_editor column).
Proof. unfold open_field_editor, lock_rset. names_frame. Qed.

Lemma names_kept_get_full_column_type editor schema table column :
  preserves names_kept (get_full_column_type editor schema table column).
Proof. unfold get_full_column_type. names_frame. Qed.

Lemma names_kept_add_field editor i iter :
  preserves names_kept (add_field editor i iter).
Proof.
  unfold add_field. names_frame.
  apply names_kept_get_full_column_type.
Qed.

Lemma names_kept_init p editor :
  preserves names_kept (init_for_resultset p editor).
Proof.
  unfold init_for_resultset.
  names_frame.
  apply (@preserves_for_each _ names_kept_refl names_kept_trans).
  intros i x. apply names_kept_add_field.
Qed.

Lemma names_kept_run_operation o : preserves names_kept (run_operation o).
Proof.
  destruct o; cbn [run_operation].
  - apply names_kept_navigate.
  - apply (@preserves_bind _ names_kept_trans);
      [apply names_kept_display_record|].
    intros _. apply (@preserves_ret _ names_kept_refl).
  - apply names_kept_update_value.
  - apply names_kept_open_field_editor.
  - apply names_kept_init.
Qed.

Lemma names_kept_run_operations ops : forall w,
  names_kept w (run_operations ops w).
Proof.
  induction ops as [|o ops IH]; intros w; cbn [run_operations].
  - apply names_kept_refl.
  - eapply names_kept_trans; [apply names_kept_run_operation | apply IH].
Qed.

(** X13.  No call on the panel adds, removes, renames or reorders a
    toolbar item or moves the location label: after any session of
    [navigate], [display_record], [update_value], [open_field_editor]
    and [init_for_resultset] calls the item names and the label position
    are as at the start.  So on a panel that started with the names the
    constructor gives (editable or not), [display_record] and [navigate]
    find their four items at any later time and return normally. *)
Theorem toolbar_is_stable (ops : list operation) (w : World) :
  names_kept w (run_operations ops w)
  /\ (forall e,
         tbar_names (w_form w) = tbar_names (new_ResultFormView e) ->
         snd (display_record (run_operations ops w)) = Ok 0
         /\ (forall item,
                snd (navigate item (run_operations ops w)) = Ok tt)).
Proof.
  pose proof (names_kept_run_operations ops w) as [Hnames Hlabel].
  split; [now split|]. intros e He. rewrite <- Hnames in He. split.
  - now apply (display_record_ok _ e).
  - intros item. now apply (navigate_ok _ e).
Qed.

Lemma nth_error_update_nth A (g : A -> A) l : forall i j,
  nth_error (Rs.update_nth i g l) j
  = if Nat.eqb j i then option_map g (nth_error l j) else nth_error l j.
Proof.
  induction l as [|x l IH]; intros [|i] [|j];
    cbn [Rs.update_nth nth_error Nat.eqb option_map]; try reflexivity.
  - now destruct (Nat.eqb _ _).
  - apply IH.
Qed.

Lemma constructed_length e : (8 <= List.length (_tbar (new_ResultFormView e)))%nat.
Proof. destruct e; cbn; lia. Qed.

(** X14.  On a live recordset and a toolbar with the constructor's
    items, [display_record] writes "row+1 / count" into the location
    label, enables first and back exactly when the edited row is above
    0, enables next and last exactly when it is below the last row, and
    leaves every other item as it was; the second item of an editable
    toolbar that is also named last (the one for adding a row) is among
    those it never touches. *)
Theorem display_record_toolbar (w : World) (r : Recordset) (e : bool) :
  snd (lock_rset w) = Ok (Some r) ->
  tbar_names (w_form w) = tbar_names (new_ResultFormView e) ->
  _label_item (w_form w) = 5%nat ->
  CInt.INT_MIN <= Rs.edited_field_row r < CInt.INT_MAX ->
  Rs.count r <= CInt.INT_MAX ->
  let shown := nth_error (_tbar (w_form (fst (display_record w)))) in
  option_map item_text (shown 5%nat)
  = Some (string_of_int (Rs.edited_field_row r + 1) ++ " / "
            ++ string_of_int (Rs.count r))
  /\ option_map item_enabled (shown 3%nat) = Some (0 <? Rs.edited_field_row r)
  /\ option_map item_enabled (shown 4%nat) = Some (0 <? Rs.edited_field_row r)
  /\ option_map item_enabled (shown 6%nat)
     = Some (Rs.edited_field_row r <? Rs.count r - 1)
  /\ option_map item_enabled (shown 7%nat)
     = Some (Rs.edited_field_row r <? Rs.count r - 1)
  /\ (forall i, (i < 3 \/ 7 < i)%nat ->
                shown i = nth_error (_tbar (w_form w)) i).
Proof.
  intros Hlock Hnames Hlabel Hrow Hcount shown. subst shown.
  rewrite (display_record_constructed w r e Hlock Hnames), Hlabel.
  cbn [fst with_panel w_form set_tbar _tbar]. unfold displayed_tbar.
  assert (Hlen : (8 <= List.length (_tbar (w_form w)))%nat).
  { unfold tbar_names in Hnames.
    rewrite <- (length_map item_name), Hnames, length_map.
    apply constructed_length. }
  assert (Hsome : forall k, (k < 8)%nat ->
                            exists x, nth_error (_tbar (w_form w)) k = Some x).
  { intros k Hk.
    destruct (nth_error (_tbar (w_form w)) k) as [x|] eqn:E; [eauto|].
    apply nth_error_None in E. lia. }
  pose proof (count_nonneg r) as Hc.
  assert (Hadd : CInt.add (Rs.edited_field_row r) 1
                 = Rs.edited_field_row r + 1).
  { apply wrap_int_id.
    unfold CInt.in_int, CInt.INT_MIN, CInt.INT_MAX in *. lia. }
  assert (Hsub : CInt.sub (Rs.count r) 1 = Rs.count r - 1).
  { apply wrap_int_id.
    unfold CInt.in_int, CInt.INT_MIN, CInt.INT_MAX in *. lia. }
  rewrite Hadd, Hsub, Z.gtb_ltb.
  rewrite !nth_error_update_nth.
  destruct (Hsome 3%nat ltac:(lia)) as [x3 E3].
  destruct (Hsome 4%nat ltac:(lia)) as [x4 E4].
  destruct (Hsome 5%nat ltac:(lia)) as [x5 E5].
  destruct (Hsome 6%nat ltac:(lia)) as [x6 E6].
  destruct (Hsome 7%nat ltac:(lia)) as [x7 E7].
  cbn [Nat.eqb]. rewrite E3, E4, E5, E6, E7.
  cbn [option_map item_text item_enabled item_set_text item_set_enabled].
  repeat (split; [reflexivity|]).
  intros i Hi. rewrite !nth_error_update_nth.
  destruct (Nat.eqb_spec i 7), (Nat.eqb_spec i 6), (Nat.eqb_spec i 4),
    (Nat.eqb_spec i 3), (Nat.eqb_spec i 5); try lia; reflexivity.
Qed.

Lemma display_record_toolbar_witness :
  option_map item_text
    (nth_error (_tbar (w_form (fst (display_record (sample_world 2))))) 5)
  = Some "3 / 3"
  /\ option_map item_enabled
       (nth_error (_tbar (w_form (fst (display_record (sample_world 2))))) 6)
     = Some false.
Proof.
  destruct (display_record_toolbar (sample_world 2) (sample_recordset 2) true
              eq_refl eq_refl eq_refl) as (Ht & _ & _ & Hn & _).
  - cbn. unfold CInt.INT_MIN, CInt.INT_MAX. lia.
  - cbn. unfold CInt.INT_MAX. lia.
  - split; [exact Ht | exact Hn].
Defined.

(** ** Navigation, in general *)

(** X15.  On a live recordset with an edited row, the delete item makes
    [navigate] hand the edited row to the recordset's [delete_node] and
    redisplay, and any item that is none of delete, back, first, next and
    last only redisplays; neither re-anchors the edited field nor calls
    the update hook, so the log stays as it was. *)
Theorem navigate_other_items (w : World) (r : Recordset)
        (item : ToolBarItem) :
  snd (lock_rset w) = Ok (Some r) ->
  0 <= Rs.edited_field_row r ->
  (item_name item = "delete" ->
   navigate item w
   = (display_record ;; ret tt)
       (with_recordset w (Rs.delete_node (Rs.edited_field_row r) r)))
  /\ (~ In (item_name item) ["delete"; "back"; "first"; "next"; "last"] ->
      navigate item w = (display_record ;; ret tt) w
      /\ w_rset (fst (navigate item w)) = Some r)
  /\ (nav_target (item_name item) (Rs.edited_field_row r) (Rs.count r) = None
      -> w_log (fst (navigate item w)) = w_log w).
Proof.
  intros Hlock Hrow. pose proof (lock_rset_alive _ _ Hlock) as Hr.
  assert (Hnav : forall m : M unit,
             (rset <- lock_rset ;;
              match rset with
              | Some r0 =>
                  if Rs.edited_field_row r0 <? 0 then ret tt
                  else m ;; display_record ;; ret tt
              | None => ret tt
              end) w = (m ;; display_record ;; ret tt) w).
  { intros m. rewrite (bind_lock_rset _ _ _ _ Hlock).
    destruct (Z.ltb_spec (Rs.edited_field_row r) 0); [lia | reflexivity]. }
  assert (Hdelete : item_name item = "delete" ->
            navigate item w
            = (display_record ;; ret tt)
                (with_recordset w
                   (Rs.delete_node (Rs.edited_field_row r) r))).
  { intros E. unfold navigate. rewrite (bind_lock_rset _ _ _ _ Hlock).
    destruct (Z.ltb_spec (Rs.edited_field_row r) 0); [lia|].
    rewrite E. cbn [String.eqb Ascii.eqb Bool.eqb].
    unfold bind at 1. unfold with_rset, with_recordset. now rewrite Hr. }
  assert (Hother :
            ~ In (item_name item) ["delete"; "back"; "first"; "next"; "last"]
            -> navigate item w = (display_record ;; ret tt) w).
  { intros Hn. unfold navigate. rewrite (bind_lock_rset _ _ _ _ Hlock).
    destruct (Z.ltb_spec (Rs.edited_field_row r) 0); [lia|].
    cbn [In] in Hn.
    repeat match goal with
           | |- context [String.eqb ?a ?b] =>
               destruct (String.eqb_spec a b) as [E|_];
                 [exfalso; apply Hn; rewrite E; auto 6|]
           end.
    reflexivity. }
  split; [exact Hdelete|]. split.
  - intros Hn. split; [now apply Hother|].
    rewrite (Hother Hn).
    destruct (redisplay_panel_only w) as (Hrs & _). now rewrite Hrs.
  - unfold nav_target. intros Hnone.
    destruct (String.eqb_spec (item_name item) "delete") as [E|Hd].
    + rewrite (Hdelete E).
      now destruct (redisplay_panel_only
                      (with_recordset w
                         (Rs.delete_node (Rs.edited_field_row r) r)))
        as (_ & Hlog & _).
    + rewrite Hother.
      * now destruct (redisplay_panel_only w) as (_ & Hlog & _).
      * cbn [In]. intros [E|[E|[E|[E|[E|[]]]]]]; try (now apply Hd);
          rewrite <- E in Hnone; cbn in Hnone; discriminate.
Qed.

Lemma navigate_other_items_witness :
  w_rset (fst (navigate (item_set_name "location" (new_ToolBarItem LabelItem))
                        (sample_world 1)))
  = Some (sample_recordset 1).
Proof.
  refine (proj2 (proj1 (proj2 (navigate_other_items (sample_world 1)
                                 (sample_recordset 1)
                                 (item_set_name "location"
                                    (new_ToolBarItem LabelItem))
                                 eq_refl _)) _)).
  - cbn. lia.
  - cbn. intros [E|[E|[E|[E|[E|[]]]]]]; discriminate E.
Defined.

(** X16.  The four navigation items keep the edited row within the
    rows: from a row between 0 and count-1 they lead to a row between 0
    and count-1 of the same recordset, whose rows, row count and edited
    column are as before. *)
Theorem navigate_stays_in_range (w : World) (r : Recordset)
        (item : ToolBarItem) (target : Z) :
  snd (lock_rset w) = Ok (Some r) ->
  0 <= Rs.edited_field_row r < Rs.count r ->
  Rs.count r <= CInt.INT_MAX ->
  nav_target (item_name item) (Rs.edited_field_row r) (Rs.count r)
  = Some target ->
  0 <= target < Rs.count r
  /\ exists r',
      snd (lock_rset (fst (navigate item w))) = Ok (Some r')
      /\ Rs.edited_field_row r' = target
      /\ Rs.edited_field_column r' = Rs.edited_field_column r
      /\ rows r' = rows r
      /\ Rs.count r' = Rs.count r.
Proof.
  intros Hlock Hrow Hcount Ht. split.
  - destruct (nav_target_name _ _ _ _ Ht) as [E|[E|[E|E]]];
      rewrite E in Ht; cbn in Ht; injection Ht as <-; lia.
  - eexists. split.
    + apply (navigate_rset w r item target Hlock); [lia|assumption..].
    + repeat split.
Qed.

Lemma navigate_stays_in_range_witness :
  0 <= 0 < Rs.count (sample_recordset 1).
Proof.
  refine (proj1 (navigate_stays_in_range (sample_world 1)
                   (sample_recordset 1) (action_item "back" "" "") 0
                   eq_refl _ _ eq_refl)).
  - cbn. lia.
  - cbn. unfold CInt.INT_MAX. lia.
Defined.

(** X17.  On a live recordset, [next] followed by [back] returns to the
    recordset one started from whenever the edited row was not the last
    one, and [back] followed by [next] does whenever it was not row 0
    (and lay within the rows). *)
Theorem next_and_back_undo (w : World) (r : Recordset)
        (next back : ToolBarItem) :
  snd (lock_rset w) = Ok (Some r) ->
  item_name next = "next" -> item_name back = "back" ->
  0 <= Rs.edited_field_row r ->
  Rs.count r <= CInt.INT_MAX ->
  (Rs.edited_field_row r + 1 < Rs.count r ->
   w_rset (fst (navigate back (fst (navigate next w)))) = Some r)
  /\ (0 < Rs.edited_field_row r < Rs.count r ->
      w_rset (fst (navigate next (fst (navigate back w)))) = Some r).
Proof.
  intros Hlock Hn Hb Hrow Hcount. split; intros Hin.
  - assert (H1 : snd (lock_rset (fst (navigate next w)))
                 = Ok (Some (Rs.set_edited_field (Rs.edited_field_row r + 1)
                               (Rs.edited_field_column r) r))).
    { apply (navigate_rset w r next); [assumption|lia|assumption|].
      rewrite Hn. cbn [nav_target String.eqb Ascii.eqb Bool.eqb].
      f_equal. lia. }
    apply lock_rset_alive.
    rewrite (navigate_rset _ _ back (Rs.edited_field_row r) H1).
    + now destruct r.
    + cbn [Rs.edited_field_row Rs.set_edited_field _edited_field_row].
      unfold CInt.INT_MAX in *. lia.
    + assumption.
    + rewrite Hb. cbn [nav_target String.eqb Ascii.eqb Bool.eqb].
      cbn [Rs.edited_field_row Rs.set_edited_field _edited_field_row].
      f_equal. lia.
  - assert (H1 : snd (lock_rset (fst (navigate back w)))
                 = Ok (Some (Rs.set_edited_field (Rs.edited_field_row r - 1)
                               (Rs.edited_field_column r) r))).
    { apply (navigate_rset w r back); [assumption|lia|assumption|].
      rewrite Hb. cbn [nav_target String.eqb Ascii.eqb Bool.eqb].
      f_equal. lia. }
    apply lock_rset_alive.
    rewrite (navigate_rset _ _ next (Rs.edited_field_row r) H1).
    + now destruct r.
    + cbn [Rs.edited_field_row Rs.set_edited_field _edited_field_row].
      unfold CInt.INT_MAX in *. lia.
    + assumption.
    + rewrite Hn. cbn [nav_target String.eqb Ascii.eqb Bool.eqb].
      change (Rs.count (Rs.set_edited_field (Rs.edited_field_row r - 1)
                          (Rs.edited_field_column r) r)) with (Rs.count r).
      cbn [Rs.edited_field_row Rs.set_edited_field _edited_field_row].
      f_equal. lia.
Qed.

Lemma next_and_back_undo_witness :
  w_rset (fst (navigate (action_item "back" "" "")
                 (fst (navigate (action_item "next" "" "")
                         (sample_world 0)))))
  = Some (sample_recordset 0).
Proof.
  refine (proj1 (next_and_back_undo (sample_world 0) (sample_recordset 0)
                   (action_item "next" "" "") (action_item "back" "" "")
                   eq_refl eq_refl eq_refl _ _) _).
  - cbn. lia.
  - cbn. unfold CInt.INT_MAX. lia.
  - cbn. lia.
Defined.

(** ** What is displayed *)

Lemma set_value_overwrites v value is_null value' is_null' :
  set_value (set_value v value' is_null') value is_null
  = set_value v value is_null.
Proof.
  destruct v; cbn [set_value entry_enabled entry_size selector_items
                     selector_enabled tbox_enabled tbox_size];
    try reflexivity.
  now rewrite set_value_overrides_marks.
Qed.

Lemma display_fields_overwrites r r0 fields : forall c,
  display_fields r c (display_fields r0 c fields) = display_fields r c fields.
Proof.
  induction fields as [|v fields IH]; intros c; cbn [display_fields];
    [reflexivity|].
  now rewrite set_value_overwrites, IH.
Qed.

Lemma displayed_tbar_overwrites r r0 li tbar :
  displayed_tbar r li (displayed_tbar r0 li tbar) = displayed_tbar r li tbar.
Proof.
  apply nth_error_ext. intros j. unfold displayed_tbar.
  rewrite !nth_error_update_nth.
  destruct (Nat.eqb j 7), (Nat.eqb j 6), (Nat.eqb j 4), (Nat.eqb j 3),
    (Nat.eqb j li), (nth_error tbar j) as [[]|]; reflexivity.
Qed.

(** X18.  What [display_record] shows is decided by the recordset as it
    is now: on a toolbar with the constructor's items, displaying a
    recordset [r] right after another state [r0] of it was displayed
    leaves the panel exactly as displaying [r] alone, so nothing of the
    row shown before survives. *)
Theorem display_record_forgets (w : World) (r r0 : Recordset) (e : bool) :
  _rset (w_form w) = ptr_to_recordset ->
  tbar_names (w_form w) = tbar_names (new_ResultFormView e) ->
  display_record
    (with_recordset (fst (display_record (with_recordset w r0))) r)
  = display_record (with_recordset w r).
Proof.
  intros Hp Hnames.
  assert (Hlock : forall w' x,
             _rset (w_form w') = ptr_to_recordset ->
             snd (lock_rset (with_recordset w' x)) = Ok (Some x)).
  { intros w' x Hw'. cbn. now rewrite Hw'. }
  rewrite (display_record_constructed (with_recordset w r0) r0 e
             (Hlock w r0 Hp) Hnames).
  cbn [fst].
  rewrite (display_record_constructed _ r e); cycle 1.
  { apply Hlock. cbn. exact Hp. }
  { unfold tbar_names in *. cbn [with_recordset with_panel w_form set_tbar
                                   _tbar].
    unfold displayed_tbar.
    rewrite !map_update_nth by reflexivity. exact Hnames. }
  rewrite (display_record_constructed (with_recordset w r) r e
             (Hlock w r Hp) Hnames).
  cbn [with_recordset with_panel w_form w_rset w_log set_tbar set_fields
       _tbar _fields _label_item].
  now rewrite displayed_tbar_overwrites, display_fields_overwrites.
Qed.

Lemma display_record_forgets_witness :
  display_record
    (with_recordset
       (fst (display_record
               (with_recordset (sample_panel 0)
                  (Rs.connect_refresh_ui (sample_recordset 2)))))
       (Rs.connect_refresh_ui (sample_recordset 1)))
  = display_record
      (with_recordset (sample_panel 0)
         (Rs.connect_refresh_ui (sample_recordset 1))).
Proof.
  exact (display_record_forgets (sample_panel 0)
           (Rs.connect_refresh_ui (sample_recordset 1))
           (Rs.connect_refresh_ui (sample_recordset 2)) true
           eq_refl eq_refl).
Defined.
